(** * Fine Offset Electronics WS90 weather station decoder

    A shallow embedding of [src/devices/fineoffset_ws90.c] (both revisions of
    [fineoffset_ws90_decode] that the repository carries) and the properties
    of the decoder that the specification states.

    Conventions.
    - A [uint8_t] is a [Z] in [0, 255]; an [int] is a [Z].  Every [int]
      expression of the decoder stays far below [2^31] (the largest is the
      24 bit id), so no wrap-around is written for them; the one narrowing
      conversion, [uint8_t chk = add_bytes(...)], is written [mod 256].
    - [float]/[double] values of the record are the exact rationals that the
      C expressions denote ([x * 0.1f] is [x * (1/10)]).
    - The calls the decoder makes to the library ([bitbuffer_search],
      [bitbuffer_extract_bytes], [crc8], [add_bytes], [decoder_output_data])
      are recorded, in order, in a trace; diagnostic logging
      ([decoder_logf], [decoder_logf_bitbuffer]) has no effect on the result
      and is left out. *)

From Stdlib Require Import ZArith List String Ascii Bool QArith Lia.
Import ListNotations.
Local Open Scope string_scope.
Local Open Scope list_scope.
Local Open Scope Z_scope.

(** ** Bytes and bit buffers *)

Definition is_byte (b : Z) : Prop := 0 <= b < 256.

Definition is_byteb (b : Z) : bool := (0 <=? b) && (b <? 256).

(** [buf[i]] for a byte array held as a list. *)
Definition byte_at (buf : list Z) (i : nat) : Z := nth i buf 0.

(** A [uint8_t buf[32]] filled by the extractor. *)
Definition frame_ok (buf : list Z) : Prop :=
  List.length buf = 32%nat /\ Forall is_byte buf.

(** [bitbuffer_t]: per row a bit count and the row's bytes, first bit of the
    row in the most significant bit of the first byte. *)
Record bitbuffer_t := {
  bits_per_row : list Z;
  bb : list (list Z)
}.

Definition row_bits (bitbuffer : bitbuffer_t) (row : nat) : Z :=
  nth row (bits_per_row bitbuffer) 0.

Definition row_bytes (bitbuffer : bitbuffer_t) (row : nat) : list Z :=
  nth row (bb bitbuffer) [].

Definition bit_at (bytes : list Z) (i : Z) : bool :=
  Z.testbit (nth (Z.to_nat (i / 8)) bytes 0) (7 - i mod 8).

(** ** Library primitives *)

(** Modelled from the spec: the return codes of [decoder.h], which is not
    among the sources.  The spec describes them as distinct negative/zero
    signals, next to the positive event count; the values are the ones the
    decoder framework gives to the three names the decoder uses. *)
Definition DECODE_ABORT_LENGTH : Z := -1.
Definition DECODE_ABORT_EARLY : Z := -2.
Definition DECODE_FAIL_MIC : Z := -3.

Definition pattern_at (bits pattern : list Z) (pos : Z) (pattern_bits_len : nat) : bool :=
  forallb (fun k => Bool.eqb (bit_at bits (pos + Z.of_nat k)) (bit_at pattern (Z.of_nat k)))
          (seq 0 pattern_bits_len).

Fixpoint search_from (fuel : nat) (bits pattern : list Z) (len ipos : Z)
         (pattern_bits_len : nat) : Z :=
  match fuel with
  | O => len
  | S fuel' =>
      if ipos + Z.of_nat pattern_bits_len >? len then len
      else if pattern_at bits pattern ipos pattern_bits_len then ipos
      else search_from fuel' bits pattern len (ipos + 1) pattern_bits_len
  end.

(** Modelled from the spec: [bitbuffer_search] of the bit buffer library,
    which is not among the sources: "search the bit sequence for the fixed
    preamble+sync bit pattern", giving the offset of the first match at or
    after [start]; without a match the row's bit length comes back, so that
    the caller's size test reports a short package. *)
Definition bitbuffer_search (bitbuffer : bitbuffer_t) (row : nat) (start : Z)
           (pattern : list Z) (pattern_bits_len : nat) : Z :=
  let len := row_bits bitbuffer row in
  search_from (Z.to_nat len) (row_bytes bitbuffer row) pattern len start pattern_bits_len.

Definition extract_byte (bits : list Z) (pos : Z) : Z :=
  fold_left (fun acc k => 2 * acc + (if bit_at bits (pos + Z.of_nat k) then 1 else 0))
            (seq 0 8) 0.

(** Modelled from the spec: [bitbuffer_extract_bytes] of the bit buffer
    library, which is not among the sources: "a 32-byte buffer, packing bits
    MSB-first into bytes", starting at bit [pos]; [len] is in bits. *)
Definition bitbuffer_extract_bytes (bitbuffer : bitbuffer_t) (row : nat) (pos : Z)
           (len : nat) : list Z :=
  map (fun j => extract_byte (row_bytes bitbuffer row) (pos + 8 * Z.of_nat j))
      (seq 0 ((len + 7) / 8)).

Fixpoint crc8_shift (bit : nat) (remainder polynomial : Z) : Z :=
  match bit with
  | O => remainder
  | S bit' =>
      let shifted := Z.shiftl remainder 1 mod 256 in
      crc8_shift bit'
        (if Z.land remainder 0x80 =? 0 then shifted else Z.lxor shifted polynomial)
        polynomial
  end.

(** Modelled from the spec: [crc8] of the utility library, which is not among
    the sources: "a CRC-8 (polynomial 0x31, initial value 0x00)", the generic
    CRC-8 over the first [nBytes] bytes: most significant bit first, no
    reflection and no final xor. *)
Definition crc8 (message : list Z) (nBytes : nat) (polynomial init : Z) : Z :=
  fold_left (fun remainder b => crc8_shift 8 (Z.lxor remainder b) polynomial)
            (firstn nBytes message) init.

(** Modelled from the spec: [add_bytes] of the utility library, which is not
    among the sources: the "additive checksum", the [int] sum of the first
    [num_bytes] bytes. *)
Definition add_bytes (message : list Z) (num_bytes : nat) : Z :=
  fold_left Z.add (firstn num_bytes message) 0.

(** ** Text formatting *)

Definition hex_digit (d : Z) : ascii :=
  nth (Z.to_nat d) (list_ascii_of_string "0123456789abcdef") "0"%char.

(** The digits of an [unsigned] in base 16, without leading zeros; the value
    has 32 bits, so eight rounds reach its last digit. *)
Fixpoint hex_digits (fuel : nat) (n : Z) (acc : string) : string :=
  match fuel with
  | O => acc
  | S fuel' =>
      let acc' := String (hex_digit (n mod 16)) acc in
      if n / 16 =? 0 then acc' else hex_digits fuel' (n / 16) acc'
  end.

Fixpoint zero_pad (k : nat) (s : string) : string :=
  match k with
  | O => s
  | S k' => String "0"%char (zero_pad k' s)
  end.

(** [sprintf("%0<width>x", n)]. *)
Definition sprintf_0x (width : nat) (n : Z) : string :=
  let digits := hex_digits 8 n EmptyString in
  zero_pad (width - String.length digits) digits.

(** [sprintf] of a list of bytes, each as [%02x], with [sep] between them. *)
Definition sprintf_bytes (sep : string) (bytes : list Z) : string :=
  String.concat sep (map (sprintf_0x 2) bytes).

(** ** The output record *)

Inductive data_value :=
  | DATA_STRING (s : string)
  | DATA_INT (i : Z)
  | DATA_DOUBLE (d : Q).

Record data_entry := {
  key : string;
  pretty_key : string;
  format : option string;
  value : data_value
}.

Definition data_t := list data_entry.

(** One argument group of [data_make]; [DATA_COND, c] in front of the value
    leaves the entry out when [c] is zero. *)
Definition entry (k p : string) (f : option string) (v : data_value) : list data_entry :=
  [{| key := k; pretty_key := p; format := f; value := v |}].

Definition DATA_COND (c : bool) (e : list data_entry) : list data_entry :=
  if c then e else [].

Definition data_make (groups : list (list data_entry)) : data_t := List.concat groups.

Definition data_get (k : string) (data : data_t) : option data_value :=
  option_map value (find (fun e => String.eqb (key e) k) data).

Definition data_has (k : string) (data : data_t) : bool :=
  existsb (fun e => String.eqb (key e) k) data.

(** ** Control flow of the decoder: early [return], and the library calls in
    the order they are made *)

Inductive call :=
  | call_bitbuffer_search (pattern : list Z) (pattern_bits_len : nat)
  | call_bitbuffer_extract_bytes (pos : Z) (len : nat)
  | call_crc8 (nBytes : nat) (polynomial init : Z)
  | call_add_bytes (num_bytes : nat)
  | call_decoder_output_data (data : data_t).

(** A computation leaves with [inl code] at a [return code;] and goes on with
    [inr x] otherwise. *)
Definition M (A : Type) : Type := list call -> (Z + A) * list call.

Definition ret {A} (x : A) : M A := fun t => (inr x, t).

Definition bind {A B} (m : M A) (f : A -> M B) : M B :=
  fun t => match m t with
           | (inl code, t') => (inl code, t')
           | (inr x, t') => f x t'
           end.

Definition Return {A} (code : Z) : M A := fun t => (inl code, t).

Definition called {A} (c : call) (result : A) : M A := fun t => (inr result, t ++ [c]).

Definition when (c : bool) (m : M unit) : M unit := if c then m else ret tt.

Notation "x <- m ;; k" := (bind m (fun x => k))
  (at level 61, m at next level, right associativity).
Notation "m ;; k" := (bind m (fun _ => k))
  (at level 61, right associativity).

(** What the caller of the decoder sees: the returned [int] and the calls
    that were made. *)
Definition run (m : M Z) : Z * list call :=
  match m [] with
  | (inl code, t) => (code, t)
  | (inr code, t) => (code, t)
  end.

Definition emitted (t : list call) : list data_t :=
  flat_map (fun c => match c with call_decoder_output_data d => [d] | _ => [] end) t.

Definition is_checksum_call (c : call) : bool :=
  match c with
  | call_crc8 _ _ _ | call_add_bytes _ => true
  | _ => false
  end.

Definition is_locator_call (c : call) : bool :=
  match c with
  | call_bitbuffer_search _ _ | call_bitbuffer_extract_bytes _ _ => true
  | _ => false
  end.

Definition do_bitbuffer_search (bitbuffer : bitbuffer_t) (row : nat) (start : Z)
           (pattern : list Z) (pattern_bits_len : nat) : M Z :=
  called (call_bitbuffer_search pattern pattern_bits_len)
         (bitbuffer_search bitbuffer row start pattern pattern_bits_len).

Definition do_bitbuffer_extract_bytes (bitbuffer : bitbuffer_t) (row : nat) (pos : Z)
           (len : nat) : M (list Z) :=
  called (call_bitbuffer_extract_bytes pos len) (bitbuffer_extract_bytes bitbuffer row pos len).

Definition do_crc8 (message : list Z) (nBytes : nat) (polynomial init : Z) : M Z :=
  called (call_crc8 nBytes polynomial init) (crc8 message nBytes polynomial init).

Definition do_add_bytes (message : list Z) (num_bytes : nat) : M Z :=
  called (call_add_bytes num_bytes) (add_bytes message num_bytes).

Definition decoder_output_data (data : data_t) : M unit :=
  called (call_decoder_output_data data) tt.

(** ** Field decoding shared by the two revisions

    Lines 94-110 of the first revision and lines 274-286 of the second are
    the same statements, apart from the battery level. *)

(** [x * 0.1f] and [x * 0.01f]. *)
Definition tenths (x : Z) : Q := (inject_Z x * (1 # 10))%Q.

Definition hundredths (x : Z) : Q := (inject_Z x * (1 # 100))%Q.

Definition id (buf : list Z) : Z :=
  Z.lor (Z.lor (Z.shiftl (byte_at buf 1) 16) (Z.shiftl (byte_at buf 2) 8)) (byte_at buf 3).

Definition id_str (buf : list Z) : string := sprintf_0x 6 (id buf).

Definition light_raw (buf : list Z) : Z :=
  Z.lor (Z.shiftl (byte_at buf 4) 8) (byte_at buf 5).

Definition light_lux (buf : list Z) : Q := inject_Z (light_raw buf * 10).

Definition battery_mv (buf : list Z) : Z := byte_at buf 6 * 20.

Definition flags (buf : list Z) : Z := byte_at buf 7.

Definition temp_raw (buf : list Z) : Z :=
  Z.lor (Z.shiftl (Z.land (byte_at buf 7) 0x03) 8) (byte_at buf 8).

Definition temp_c (buf : list Z) : Q := tenths (temp_raw buf - 400).

Definition humidity (buf : list Z) : Z := byte_at buf 9.

Definition wind_avg (buf : list Z) : Z :=
  Z.lor (Z.shiftl (Z.land (byte_at buf 7) 0x10) 4) (byte_at buf 10).

Definition wind_dir (buf : list Z) : Z :=
  Z.lor (Z.shiftl (Z.land (byte_at buf 7) 0x20) 3) (byte_at buf 11).

Definition wind_max (buf : list Z) : Z :=
  Z.lor (Z.shiftl (Z.land (byte_at buf 7) 0x40) 2) (byte_at buf 12).

Definition uv_index (buf : list Z) : Z := byte_at buf 13.


(** ** First revision of the decoder (checksum layout of the WS90, opaque
    byte groups [g1], [g2], [g3]); lines 59-149 *)

Module VariantA.

Definition preamble : list Z := [0xaa; 0x2d; 0xd4].

Definition battery_lvl (buf : list Z) : Z :=
  if battery_mv buf <? 1680 then 0 else Z.quot (battery_mv buf - 1680) 16.

Definition rain_raw (buf : list Z) : Z :=
  Z.lor (Z.shiftl (Z.land (byte_at buf 19) 0x0f) 8) (byte_at buf 20).

Definition rain (buf : list Z) : Q := tenths (rain_raw buf).

Definition g1 (buf : list Z) : string :=
  sprintf_bytes " " [byte_at buf 15; byte_at buf 16; byte_at buf 17; byte_at buf 18].

Definition g2 (buf : list Z) : string :=
  sprintf_bytes " " [byte_at buf 21; byte_at buf 22; byte_at buf 23; byte_at buf 24].

Definition g3 (buf : list Z) : string :=
  sprintf_bytes " " [byte_at buf 25; byte_at buf 26; byte_at buf 27; byte_at buf 28;
                     byte_at buf 29].

Definition data (buf : list Z) : data_t :=
  data_make [
    entry "model" "" None (DATA_STRING "Fineoffset-WS90");
    entry "id" "ID" None (DATA_STRING (id_str buf));
    entry "battery_ok" "Battery" None (DATA_DOUBLE (hundredths (battery_lvl buf)));
    entry "battery_mV" "Battery Voltage" (Some "%d mV") (DATA_INT (battery_mv buf));
    DATA_COND (negb (temp_raw buf =? 0x3ff))
      (entry "temperature_C" "Temperature" (Some "%.1f C") (DATA_DOUBLE (temp_c buf)));
    DATA_COND (negb (humidity buf =? 0xff))
      (entry "humidity" "Humidity" (Some "%u %%") (DATA_INT (humidity buf)));
    DATA_COND (negb (wind_dir buf =? 0x1ff))
      (entry "wind_dir_deg" "Wind direction" None (DATA_INT (wind_dir buf)));
    DATA_COND (negb (wind_avg buf =? 0x1ff))
      (entry "wind_avg_m_s" "Wind speed" (Some "%.1f m/s") (DATA_DOUBLE (tenths (wind_avg buf))));
    DATA_COND (negb (wind_max buf =? 0x1ff))
      (entry "wind_max_m_s" "Gust speed" (Some "%.1f m/s") (DATA_DOUBLE (tenths (wind_max buf))));
    DATA_COND (negb (uv_index buf =? 0xff))
      (entry "uv" "UVI" (Some "%.1f") (DATA_DOUBLE (tenths (uv_index buf))));
    DATA_COND (negb (light_raw buf =? 0xffff))
      (entry "lux" "Light" (Some "%.1f lux") (DATA_DOUBLE (light_lux buf)));
    entry "rain_mm" "Total rainfall" (Some "%.1f mm") (DATA_DOUBLE (rain buf));
    entry "flags" "Flags" (Some "%02x") (DATA_INT (flags buf));
    entry "g1" "Group 1" None (DATA_STRING (g1 buf));
    entry "g2" "Group 2" None (DATA_STRING (g2 buf));
    entry "g3" "Group 3" None (DATA_STRING (g3 buf));
    entry "mic" "Integrity" None (DATA_STRING "CRC")
  ].

Definition fineoffset_ws90_decode (bitbuffer : bitbuffer_t) : M Z :=
  (* Validate package, WS90 nominal size is 327 bit periods *)
  when ((row_bits bitbuffer 0 <? 280) || (row_bits bitbuffer 0 >? 350))
       (Return DECODE_ABORT_LENGTH) ;;
  (* Find a data package and extract data buffer *)
  found <- do_bitbuffer_search bitbuffer 0 0 preamble 24 ;;
  let bit_offset := (found + 24) mod 2 ^ 32 in
  when (bit_offset + 32 * 8 >? row_bits bitbuffer 0)
       (Return DECODE_ABORT_LENGTH) ;;
  (* Extract package data *)
  buf <- do_bitbuffer_extract_bytes bitbuffer 0 bit_offset (32 * 8) ;;
  when (negb (byte_at buf 0 =? 0x90))
       (Return DECODE_ABORT_EARLY) ;;
  (* Verify checksum and CRC *)
  crc <- do_crc8 buf 31 0x31 0x00 ;;
  sum <- do_add_bytes buf 31 ;;
  let chk := sum mod 256 in
  when (negb (crc =? 0) || negb (chk =? byte_at buf 31))
       (Return DECODE_FAIL_MIC) ;;
  decoder_output_data (data buf) ;;
  Return 1.

(** The field names the device declares; lines 151-170. *)
Definition output_fields : list string :=
  ["model"; "id"; "battery_ok"; "battery_mV"; "temperature_C"; "humidity";
   "wind_dir_deg"; "wind_avg_m_s"; "wind_max_m_s"; "uv"; "lux"; "rain_mm"; "flags";
   "g1"; "g2"; "g3"; "mic"].

End VariantA.

(** ** Second revision of the decoder (rain total, supercap voltage,
    firmware version, one opaque [data] string); lines 240-325 *)

Module VariantB.

Definition preamble : list Z := [0xaa; 0xaa; 0x2d; 0xd4].

Definition battery_lvl (buf : list Z) : Z :=
  let battery_lvl :=
    if battery_mv buf <? 1680 then 0 else Z.quot (battery_mv buf - 1680) 16 in
  if battery_lvl >? 100 then 100 else battery_lvl.

Definition rain_raw (buf : list Z) : Z :=
  Z.lor (Z.shiftl (byte_at buf 19) 8) (byte_at buf 20).

Definition supercap_V (buf : list Z) : Z := Z.land (byte_at buf 21) 0x3f.

Definition firmware (buf : list Z) : Z := byte_at buf 29.

Definition extra (buf : list Z) : string :=
  (sprintf_bytes "" [byte_at buf 14; byte_at buf 15; byte_at buf 16; byte_at buf 17;
                     byte_at buf 18]
   ++ "------"
   ++ sprintf_bytes "" [byte_at buf 22; byte_at buf 23; byte_at buf 24; byte_at buf 25;
                        byte_at buf 26; byte_at buf 27; byte_at buf 28])%string.

Definition data (buf : list Z) : data_t :=
  data_make [
    entry "model" "" None (DATA_STRING "Fineoffset-WS90");
    entry "id" "ID" None (DATA_STRING (id_str buf));
    entry "battery_ok" "Battery" None (DATA_DOUBLE (hundredths (battery_lvl buf)));
    entry "battery_mV" "Battery Voltage" (Some "%d mV") (DATA_INT (battery_mv buf));
    DATA_COND (negb (temp_raw buf =? 0x3ff))
      (entry "temperature_C" "Temperature" (Some "%.1f C") (DATA_DOUBLE (temp_c buf)));
    DATA_COND (negb (humidity buf =? 0xff))
      (entry "humidity" "Humidity" (Some "%u %%") (DATA_INT (humidity buf)));
    DATA_COND (negb (wind_dir buf =? 0x1ff))
      (entry "wind_dir_deg" "Wind direction" None (DATA_INT (wind_dir buf)));
    DATA_COND (negb (wind_avg buf =? 0x1ff))
      (entry "wind_avg_m_s" "Wind speed" (Some "%.1f m/s") (DATA_DOUBLE (tenths (wind_avg buf))));
    DATA_COND (negb (wind_max buf =? 0x1ff))
      (entry "wind_max_m_s" "Gust speed" (Some "%.1f m/s") (DATA_DOUBLE (tenths (wind_max buf))));
    DATA_COND (negb (uv_index buf =? 0xff))
      (entry "uv" "UVI" (Some "%.1f") (DATA_DOUBLE (tenths (uv_index buf))));
    DATA_COND (negb (light_raw buf =? 0xffff))
      (entry "lux" "Light" (Some "%.1f lux") (DATA_DOUBLE (light_lux buf)));
    entry "flags" "Flags" (Some "%02x") (DATA_INT (flags buf));
    entry "rain_mm" "Total rainfall" (Some "%.1f mm") (DATA_DOUBLE (tenths (rain_raw buf)));
    DATA_COND (negb (supercap_V buf =? 0xff))
      (entry "supercap_V" "Supercap Voltage" (Some "%.1f V")
             (DATA_DOUBLE (tenths (supercap_V buf))));
    entry "firmware" "Firmware Version" None (DATA_INT (firmware buf));
    entry "data" "Extra Data" None (DATA_STRING (extra buf));
    entry "mic" "Integrity" None (DATA_STRING "CRC")
  ].

Definition fineoffset_ws90_decode (bitbuffer : bitbuffer_t) : M Z :=
  (* Validate package, WS90 nominal size is 330 bit periods *)
  when ((row_bits bitbuffer 0 <? 168) || (row_bits bitbuffer 0 >? 330))
       (Return DECODE_ABORT_LENGTH) ;;
  (* Find a data package and extract data buffer *)
  found <- do_bitbuffer_search bitbuffer 0 0 preamble 32 ;;
  let bit_offset := (found + 32) mod 2 ^ 32 in
  when (bit_offset + 32 * 8 >? row_bits bitbuffer 0)
       (Return DECODE_ABORT_LENGTH) ;;
  (* Extract package data *)
  buf <- do_bitbuffer_extract_bytes bitbuffer 0 bit_offset (32 * 8) ;;
  when (negb (byte_at buf 0 =? 0x90))
       (Return DECODE_ABORT_EARLY) ;;
  (* Verify checksum and CRC *)
  crc <- do_crc8 buf 31 0x31 0x00 ;;
  sum <- do_add_bytes buf 31 ;;
  let chk := sum mod 256 in
  when (negb (crc =? 0) || negb (chk =? byte_at buf 31))
       (Return DECODE_FAIL_MIC) ;;
  decoder_output_data (data buf) ;;
  Return 1.

(** The field names the device declares; lines 327-346. *)
Definition output_fields : list string :=
  ["model"; "id"; "battery_ok"; "battery_mV"; "temperature_C"; "humidity";
   "wind_dir_deg"; "wind_avg_m_s"; "wind_max_m_s"; "uv"; "lux"; "flags"; "rain_mm";
   "supercap_V"; "firmware"; "data"; "mic"].

End VariantB.

(** ** The two revisions side by side *)

Inductive layout := LayoutA | LayoutB.

Definition decode (l : layout) (bitbuffer : bitbuffer_t) : Z * list call :=
  match l with
  | LayoutA => run (VariantA.fineoffset_ws90_decode bitbuffer)
  | LayoutB => run (VariantB.fineoffset_ws90_decode bitbuffer)
  end.

Definition preamble (l : layout) : list Z :=
  match l with LayoutA => VariantA.preamble | LayoutB => VariantB.preamble end.

Definition preamble_bits (l : layout) : nat :=
  match l with LayoutA => 24 | LayoutB => 32 end.

Definition min_bits (l : layout) : Z :=
  match l with LayoutA => 280 | LayoutB => 168 end.

Definition max_bits (l : layout) : Z :=
  match l with LayoutA => 350 | LayoutB => 330 end.

Definition record (l : layout) (buf : list Z) : data_t :=
  match l with LayoutA => VariantA.data buf | LayoutB => VariantB.data buf end.

(** The conditions of the four [if]s, in the order the decoder tests them. *)
Definition bad_length (l : layout) (bitbuffer : bitbuffer_t) : bool :=
  (row_bits bitbuffer 0 <? min_bits l) || (row_bits bitbuffer 0 >? max_bits l).

Definition bit_offset (l : layout) (bitbuffer : bitbuffer_t) : Z :=
  (bitbuffer_search bitbuffer 0 0 (preamble l) (preamble_bits l)
   + Z.of_nat (preamble_bits l)) mod 2 ^ 32.

Definition short_package (l : layout) (bitbuffer : bitbuffer_t) : bool :=
  bit_offset l bitbuffer + 32 * 8 >? row_bits bitbuffer 0.

Definition extracted (l : layout) (bitbuffer : bitbuffer_t) : list Z :=
  bitbuffer_extract_bytes bitbuffer 0 (bit_offset l bitbuffer) (32 * 8).

Definition family_mismatch (buf : list Z) : bool := negb (byte_at buf 0 =? 0x90).

Definition mic_failure (buf : list Z) : bool :=
  negb (crc8 buf 31 0x31 0x00 =? 0) || negb (add_bytes buf 31 mod 256 =? byte_at buf 31).

(** A frame reaches the family check when the two length tests let it pass,
    and the integrity check when its family code is right as well. *)
Definition reaches_family_check (l : layout) (bitbuffer : bitbuffer_t) : bool :=
  negb (bad_length l bitbuffer) && negb (short_package l bitbuffer).

Definition reaches_integrity_check (l : layout) (bitbuffer : bitbuffer_t) : bool :=
  reaches_family_check l bitbuffer && negb (family_mismatch (extracted l bitbuffer)).

Definition accepted (l : layout) (bitbuffer : bitbuffer_t) : bool :=
  reaches_integrity_check l bitbuffer && negb (mic_failure (extracted l bitbuffer)).

(** The ways the decoder gives up. *)
Inductive abort := LengthAbort | ShortFrame | FamilyMismatch | IntegrityFailure.

Definition abort_cause (l : layout) (bitbuffer : bitbuffer_t) : option abort :=
  if bad_length l bitbuffer then Some LengthAbort
  else if short_package l bitbuffer then Some ShortFrame
  else if family_mismatch (extracted l bitbuffer) then Some FamilyMismatch
  else if mic_failure (extracted l bitbuffer) then Some IntegrityFailure
  else None.

Definition abort_code (a : abort) : Z :=
  match a with
  | LengthAbort => DECODE_ABORT_LENGTH
  | ShortFrame => DECODE_ABORT_LENGTH
  | FamilyMismatch => DECODE_ABORT_EARLY
  | IntegrityFailure => DECODE_FAIL_MIC
  end.

Definition locator_calls (l : layout) (bitbuffer : bitbuffer_t) : list call :=
  [call_bitbuffer_search (preamble l) (preamble_bits l);
   call_bitbuffer_extract_bytes (bit_offset l bitbuffer) (32 * 8)].

Definition checksum_calls : list call := [call_crc8 31 0x31 0x00; call_add_bytes 31].

(** Test vectors: a row of whole bytes. *)
Definition bitbuffer_of_bytes (bytes : list Z) : bitbuffer_t :=
  {| bits_per_row := [8 * Z.of_nat (List.length bytes)]; bb := [bytes] |}.

(** A record reaches the caller. *)
Definition produces_record (l : layout) (bitbuffer : bitbuffer_t) : Prop :=
  emitted (snd (decode l bitbuffer)) <> [].

(** ** Helpers for stating the properties *)

Definition all_bytes : list Z := map Z.of_nat (seq 0 256).

(** [buf] with [buf[i]] replaced by [v]. *)
Fixpoint set_byte (buf : list Z) (i : nat) (v : Z) : list Z :=
  match buf, i with
  | [], _ => []
  | _ :: rest, O => v :: rest
  | b :: rest, S i' => b :: set_byte rest i' v
  end.

(** [buf] with the bits [mask] of the flags byte [buf[7]] toggled. *)
Definition toggle_flag (buf : list Z) (mask : Z) : list Z :=
  set_byte buf 7 (Z.lxor (byte_at buf 7) mask).

(** Reading hexadecimal text back: the value of a digit, and of a string of
    digits. *)
Definition hex_digit_value (c : ascii) : Z :=
  let n := Z.of_N (N_of_ascii c) in
  if (48 <=? n) && (n <=? 57) then n - 48
  else if (97 <=? n) && (n <=? 102) then n - 87
  else 0.

Definition hex_value (s : string) : Z :=
  fold_left (fun acc c => 16 * acc + hex_digit_value c) (list_ascii_of_string s) 0.

(** The byte printed at position [pos] of a hex text. *)
Definition byte_of_text (text : string) (pos : nat) : Z :=
  hex_value (substring pos 2 text).


(** ** Test vectors *)

(** The packet of the second revision's protocol description. *)
Definition ws90_sample : list Z :=
  [0x90; 0x00; 0x34; 0x2b; 0x00; 0x77; 0xa4; 0x82; 0x62; 0x39; 0x00; 0x3e; 0x00; 0x00;
   0x3f; 0xff; 0x20; 0x00; 0xba; 0x00; 0x00; 0x26; 0x02; 0x00; 0xff; 0x9f; 0xf8; 0x00;
   0x00; 0x82; 0x92; 0x4f].

(** The packet of the first revision's protocol description (a WS80 packet),
    filled up with zeros to 32 bytes. *)
Definition ws80_sample : list Z :=
  [0x80; 0x0a; 0x00; 0x3b; 0x00; 0x00; 0x88; 0x8a; 0x59; 0x38; 0x18; 0x6d; 0x1c; 0x00;
   0xff; 0xff; 0xd8; 0xdf; 0; 0; 0; 0; 0; 0; 0; 0; 0; 0; 0; 0; 0; 0].

(** The same measurements under the family code 0x90, with CRC and sum in
    bytes 30 and 31. *)
Definition ws90_from_ws80_sample : list Z :=
  [0x90; 0x0a; 0x00; 0x3b; 0x00; 0x00; 0x88; 0x8a; 0x59; 0x38; 0x18; 0x6d; 0x1c; 0x00;
   0xff; 0xff; 0xd8; 0xdf; 0; 0; 0; 0; 0; 0; 0; 0; 0; 0; 0; 0; 0x35; 0x03].

(** [ws90_sample] with one bit of the humidity byte flipped. *)
Definition ws90_sample_damaged : list Z :=
  [0x90; 0x00; 0x34; 0x2b; 0x00; 0x77; 0xa4; 0x82; 0x62; 0x38; 0x00; 0x3e; 0x00; 0x00;
   0x3f; 0xff; 0x20; 0x00; 0xba; 0x00; 0x00; 0x26; 0x02; 0x00; 0xff; 0x9f; 0xf8; 0x00;
   0x00; 0x82; 0x92; 0x4f].



(** [ws90_from_ws80_sample] with the battery byte at 0x96 (3000 mV) and at
    0xff (5100 mV). *)
Definition ws90_3000mV : list Z :=
  [0x90; 0x0a; 0x00; 0x3b; 0x00; 0x00; 0x96; 0x8a; 0x59; 0x38; 0x18; 0x6d; 0x1c; 0x00;
   0xff; 0xff; 0xd8; 0xdf; 0; 0; 0; 0; 0; 0; 0; 0; 0; 0; 0; 0; 0xf6; 0xd2].

Definition ws90_5100mV : list Z :=
  [0x90; 0x0a; 0x00; 0x3b; 0x00; 0x00; 0xff; 0x8a; 0x59; 0x38; 0x18; 0x6d; 0x1c; 0x00;
   0xff; 0xff; 0xd8; 0xdf; 0; 0; 0; 0; 0; 0; 0; 0; 0; 0; 0; 0; 0x93; 0xd8].

(** [ws90_from_ws80_sample] with byte 14 at 0x3f instead of 0xff. *)
Definition ws90_other_byte_14 : list Z :=
  [0x90; 0x0a; 0x00; 0x3b; 0x00; 0x00; 0x88; 0x8a; 0x59; 0x38; 0x18; 0x6d; 0x1c; 0x00;
   0x3f; 0xff; 0xd8; 0xdf; 0; 0; 0; 0; 0; 0; 0; 0; 0; 0; 0; 0; 0x84; 0x92].

(** Rows for the length tests: 96 bits; 400 bits; 320 bits with the sync
    pattern of the first revision at bit 160, so that 136 bits follow it. *)
Definition row_96_bits : bitbuffer_t := bitbuffer_of_bytes (repeat 0 12).

Definition row_400_bits : bitbuffer_t := bitbuffer_of_bytes (repeat 0 50).

Definition row_cut_short : bitbuffer_t :=
  bitbuffer_of_bytes (repeat 0 20 ++ VariantA.preamble ++ repeat 0 17).

(** A row that is the sync pattern of a revision followed by a packet. *)
Definition on_air (l : layout) (packet : list Z) : bitbuffer_t :=
  bitbuffer_of_bytes (preamble l ++ packet).

(** ** Further helpers *)

Definition output_fields (l : layout) : list string :=
  match l with
  | LayoutA => VariantA.output_fields
  | LayoutB => VariantB.output_fields
  end.

(** The CRC byte and the sum byte that close a payload of 30 bytes. *)
Definition trailer (payload : list Z) : list Z :=
  let crc := crc8 payload 30 0x31 0x00 in
  [crc; (add_bytes payload 30 + crc) mod 256].

(** [hex_value] continued from the value [acc] of the digits read so far. *)
Definition hex_value_from (acc : Z) (s : string) : Z :=
  fold_left (fun acc c => 16 * acc + hex_digit_value c) (list_ascii_of_string s) acc.


(** The bytes a record shows in full, and the one it shows in part. *)
Definition shown_bytes (l : layout) : list nat :=
  match l with
  | LayoutA => [1; 2; 3; 4; 5; 6; 7; 8; 9; 10; 11; 12; 13;
                15; 16; 17; 18; 20; 21; 22; 23; 24; 25; 26; 27; 28; 29]
  | LayoutB => [1; 2; 3; 4; 5; 6; 7; 8; 9; 10; 11; 12; 13; 14;
                15; 16; 17; 18; 19; 20; 22; 23; 24; 25; 26; 27; 28; 29]
  end%nat.

Definition masked_byte (l : layout) (buf : list Z) : Z :=
  match l with
  | LayoutA => Z.land (byte_at buf 19) 0x0f
  | LayoutB => Z.land (byte_at buf 21) 0x3f
  end.

(** * Properties *)

(** ** The decoder, branch by branch *)

Lemma decode_unfold (l : layout) (bitbuffer : bitbuffer_t) :
  decode l bitbuffer =
  if bad_length l bitbuffer then (DECODE_ABORT_LENGTH, [])
  else if short_package l bitbuffer then
    (DECODE_ABORT_LENGTH, [call_bitbuffer_search (preamble l) (preamble_bits l)])
  else
    let buf := extracted l bitbuffer in
    if family_mismatch buf then (DECODE_ABORT_EARLY, locator_calls l bitbuffer)
    else if mic_failure buf then
      (DECODE_FAIL_MIC, locator_calls l bitbuffer ++ checksum_calls)
    else
      (1, locator_calls l bitbuffer ++ checksum_calls
          ++ [call_decoder_output_data (record l buf)]).
Proof.
  destruct l; cbv zeta;
    unfold decode, locator_calls, checksum_calls, bad_length, short_package, extracted,
      bit_offset, family_mismatch, mic_failure,
      VariantA.fineoffset_ws90_decode, VariantB.fineoffset_ws90_decode,
      run, bind, when, do_bitbuffer_search, do_bitbuffer_extract_bytes, do_crc8,
      do_add_bytes, decoder_output_data, called, Return, ret, min_bits, max_bits,
      preamble, preamble_bits, record.
  all: change (Z.of_nat 24) with 24; change (Z.of_nat 32) with 32.
  all: repeat match goal with
              | |- context [if ?c then _ else _] => destruct c; cbn [app]; try reflexivity
              end.
Qed.

Lemma decode_accepted (l : layout) (bitbuffer : bitbuffer_t) :
  accepted l bitbuffer = true ->
  decode l bitbuffer =
  (1, locator_calls l bitbuffer ++ checksum_calls
        ++ [call_decoder_output_data (record l (extracted l bitbuffer))]).
Proof.
  unfold accepted, reaches_integrity_check, reaches_family_check.
  rewrite decode_unfold; cbv zeta.
  destruct (bad_length l bitbuffer), (short_package l bitbuffer),
    (family_mismatch (extracted l bitbuffer)), (mic_failure (extracted l bitbuffer));
    simpl; congruence.
Qed.

Lemma decode_not_accepted (l : layout) (bitbuffer : bitbuffer_t) :
  accepted l bitbuffer = false ->
  emitted (snd (decode l bitbuffer)) = [] /\ fst (decode l bitbuffer) <= 0.
Proof.
  unfold accepted, reaches_integrity_check, reaches_family_check.
  rewrite decode_unfold; cbv zeta.
  destruct (bad_length l bitbuffer), (short_package l bitbuffer),
    (family_mismatch (extracted l bitbuffer)), (mic_failure (extracted l bitbuffer));
    simpl; intros; try discriminate; split; try reflexivity;
    unfold DECODE_ABORT_LENGTH, DECODE_ABORT_EARLY, DECODE_FAIL_MIC; lia.
Qed.

Lemma emitted_accepted (l : layout) (bitbuffer : bitbuffer_t) :
  accepted l bitbuffer = true ->
  emitted (snd (decode l bitbuffer)) = [record l (extracted l bitbuffer)].
Proof. intros H. rewrite (decode_accepted _ _ H). reflexivity. Qed.

Lemma decode_family_mismatch (l : layout) (bitbuffer : bitbuffer_t) :
  reaches_family_check l bitbuffer = true ->
  family_mismatch (extracted l bitbuffer) = true ->
  decode l bitbuffer = (DECODE_ABORT_EARLY, locator_calls l bitbuffer).
Proof.
  unfold reaches_family_check. intros Hreach Hmis.
  apply andb_true_iff in Hreach. destruct Hreach as [Hlen Hshort].
  apply negb_true_iff in Hlen, Hshort.
  rewrite decode_unfold, Hlen, Hshort. cbv zeta. rewrite Hmis. reflexivity.
Qed.

(** Whatever the decoder hands to [decoder_output_data] is the record of an
    accepted frame. *)
Lemma emitted_inv (l : layout) (bitbuffer : bitbuffer_t) (d : data_t) :
  In d (emitted (snd (decode l bitbuffer))) ->
  accepted l bitbuffer = true /\ d = record l (extracted l bitbuffer).
Proof.
  destruct (accepted l bitbuffer) eqn:Hacc.
  - rewrite (emitted_accepted _ _ Hacc). simpl. intros [<- | []]. auto.
  - destruct (decode_not_accepted _ _ Hacc) as [-> _]. intros [].
Qed.

(** ** Bytes *)

Lemma byte_cases (P : Z -> bool) :
  forallb P all_bytes = true -> forall b, is_byte b -> P b = true.
Proof.
  intros Hall b [Hlo Hhi].
  rewrite forallb_forall in Hall. apply Hall.
  unfold all_bytes. rewrite <- (Z2Nat.id b Hlo).
  apply in_map, in_seq. lia.
Qed.

Lemma extract_byte_is_byte (bits : list Z) (pos : Z) : is_byte (extract_byte bits pos).
Proof.
  unfold extract_byte, is_byte. cbn [seq fold_left].
  repeat match goal with
         | |- context [if ?c then _ else _] => destruct c
         end; lia.
Qed.

Lemma extracted_frame_ok (l : layout) (bitbuffer : bitbuffer_t) :
  frame_ok (extracted l bitbuffer).
Proof.
  unfold frame_ok, extracted, bitbuffer_extract_bytes. split.
  - rewrite length_map, length_seq. reflexivity.
  - apply Forall_map, Forall_forall. intros j _. apply extract_byte_is_byte.
Qed.

Lemma frame_byte (buf : list Z) (i : nat) : frame_ok buf -> is_byte (byte_at buf i).
Proof.
  intros [_ Hall]. unfold byte_at.
  destruct (Nat.lt_ge_cases i (List.length buf)) as [Hi | Hi].
  - rewrite Forall_forall in Hall. apply Hall, nth_In, Hi.
  - rewrite nth_overflow by exact Hi. unfold is_byte. lia.
Qed.

(** ** C1: the integrity check *)

(** C1, as the claim states it, fails: the decoder accepts the packet of its
    own protocol description, and emits its record, although the CRC-8 over
    bytes 0-31 of that packet is 0x13 and not zero. *)
Lemma C1_crc_over_bytes_0_31_refuted :
  ~ (reaches_integrity_check LayoutB (on_air LayoutB ws90_sample) = true ->
     let buf := extracted LayoutB (on_air LayoutB ws90_sample) in
     produces_record LayoutB (on_air LayoutB ws90_sample) <->
     add_bytes buf 31 mod 256 = byte_at buf 31 /\ crc8 buf 32 0x31 0x00 = 0).
Proof.
  intros H. specialize (H eq_refl). cbv zeta in H.
  assert (Hrec : produces_record LayoutB (on_air LayoutB ws90_sample))
    by (unfold produces_record; vm_compute; discriminate).
  apply H in Hrec. destruct Hrec as [_ Hcrc].
  vm_compute in Hcrc. discriminate.
Qed.

(** C1 (amended): a frame that passes the family check yields a record, and
    the return value 1, if and only if the byte sum over bytes 0-30 equals
    byte 31 and the CRC-8 (polynomial 0x31, initial value 0x00) over bytes
    0-30 is zero; when either check fails the decoder returns
    [DECODE_FAIL_MIC] and emits nothing. *)
Theorem C1_record_iff_sum_and_crc_over_bytes_0_30 (l : layout) (bitbuffer : bitbuffer_t) :
  reaches_integrity_check l bitbuffer = true ->
  let buf := extracted l bitbuffer in
  let checks_pass := add_bytes buf 31 mod 256 = byte_at buf 31 /\ crc8 buf 31 0x31 0x00 = 0 in
  (produces_record l bitbuffer <-> checks_pass) /\
  (checks_pass ->
   fst (decode l bitbuffer) = 1 /\ emitted (snd (decode l bitbuffer)) = [record l buf]) /\
  (~ checks_pass ->
   fst (decode l bitbuffer) = DECODE_FAIL_MIC /\ emitted (snd (decode l bitbuffer)) = []).
Proof.
  intros Hreach buf checks_pass.
  assert (Hmic : mic_failure buf = false <-> checks_pass).
  { unfold mic_failure, checks_pass.
    rewrite orb_false_iff, !negb_false_iff, !Z.eqb_eq. tauto. }
  assert (Hdec : decode l bitbuffer =
                 if mic_failure buf
                 then (DECODE_FAIL_MIC, locator_calls l bitbuffer ++ checksum_calls)
                 else (1, locator_calls l bitbuffer ++ checksum_calls
                            ++ [call_decoder_output_data (record l buf)])).
  { rewrite decode_unfold; cbv zeta. fold buf.
    unfold reaches_integrity_check, reaches_family_check in Hreach. fold buf in Hreach.
    destruct (bad_length l bitbuffer), (short_package l bitbuffer), (family_mismatch buf);
      simpl in Hreach; try discriminate. reflexivity. }
  unfold produces_record. rewrite Hdec.
  destruct (mic_failure buf); simpl.
  - assert (Hno : ~ checks_pass) by (intros Hc; apply Hmic in Hc; discriminate).
    split; [split; [intros Hrec; now elim Hrec | intros Hc; now elim Hno] |].
    split; [intros Hc; now elim Hno | intros _; split; reflexivity].
  - assert (Hyes : checks_pass) by (apply Hmic; reflexivity).
    split; [split; [intros _; exact Hyes | intros _; discriminate] |].
    split; [intros _; split; reflexivity | intros Hn; now elim Hn].
Qed.

Lemma C1_record_iff_sum_and_crc_witness :
  (reaches_integrity_check LayoutB (on_air LayoutB ws90_sample) = true /\
   fst (decode LayoutB (on_air LayoutB ws90_sample)) = 1 /\
   emitted (snd (decode LayoutB (on_air LayoutB ws90_sample))) = [record LayoutB ws90_sample]) /\
  (reaches_integrity_check LayoutA (on_air LayoutA ws90_sample_damaged) = true /\
   fst (decode LayoutA (on_air LayoutA ws90_sample_damaged)) = DECODE_FAIL_MIC /\
   emitted (snd (decode LayoutA (on_air LayoutA ws90_sample_damaged))) = []).
Proof.
  split; (split; [vm_compute; reflexivity |]).
  - refine (proj1 (proj2
      (C1_record_iff_sum_and_crc_over_bytes_0_30 LayoutB (on_air LayoutB ws90_sample) _)) _).
    + vm_compute; reflexivity.
    + vm_compute; split; reflexivity.
  - refine (proj2 (proj2
      (C1_record_iff_sum_and_crc_over_bytes_0_30 LayoutA (on_air LayoutA ws90_sample_damaged) _)) _).
    + vm_compute; reflexivity.
    + vm_compute. intros [Hsum _]. discriminate.
Defined.

(** ** C2: sentinels *)

Lemma data_has_get (k : string) (d : data_t) :
  data_has k d = false <-> data_get k d = None.
Proof.
  unfold data_has, data_get. induction d as [| e d IH]; simpl.
  - tauto.
  - destruct (String.eqb (key e) k); simpl; [split; discriminate | exact IH].
Qed.

Lemma data_get_nil (k : string) : data_get k [] = None.
Proof. reflexivity. Qed.

Lemma data_get_skip (k k' p : string) (f : option string) (v : data_value) (d : data_t) :
  String.eqb k' k = false -> data_get k (entry k' p f v ++ d) = data_get k d.
Proof. intros H. unfold data_get. simpl. rewrite H. reflexivity. Qed.

Lemma data_get_hit (k k' p : string) (f : option string) (v : data_value) (d : data_t) :
  String.eqb k' k = true -> data_get k (entry k' p f v ++ d) = Some v.
Proof. intros H. unfold data_get. simpl. rewrite H. reflexivity. Qed.

Lemma data_get_cond_skip (k k' p : string) (f : option string) (v : data_value)
      (c : bool) (d : data_t) :
  String.eqb k' k = false -> data_get k (DATA_COND c (entry k' p f v) ++ d) = data_get k d.
Proof. intros H. destruct c; [apply data_get_skip, H | reflexivity]. Qed.

Lemma data_get_cond_hit (k k' p : string) (f : option string) (v : data_value)
      (c : bool) (d : data_t) :
  String.eqb k' k = true ->
  data_get k (DATA_COND c (entry k' p f v) ++ d) = if c then Some v else data_get k d.
Proof. intros H. destruct c; [apply data_get_hit, H | reflexivity]. Qed.

(** Walks [data_get] along the argument groups of [data_make]. *)
Ltac data_get_walk :=
  unfold record, VariantA.data, VariantB.data, data_make; cbn [List.concat];
  repeat first
    [ rewrite data_get_skip by reflexivity
    | rewrite data_get_cond_skip by reflexivity
    | rewrite data_get_hit by reflexivity
    | rewrite data_get_cond_hit by reflexivity
    | rewrite data_get_nil ].

(** What the record says about each measurement that has a sentinel: either
    nothing, or the scaled value. *)
Lemma record_fields (l : layout) (buf : list Z) :
  let d := record l buf in
  data_get "temperature_C" d
  = (if temp_raw buf =? 0x3ff then None else Some (DATA_DOUBLE (tenths (temp_raw buf - 400)))) /\
  data_get "humidity" d
  = (if humidity buf =? 0xff then None else Some (DATA_INT (humidity buf))) /\
  data_get "wind_dir_deg" d
  = (if wind_dir buf =? 0x1ff then None else Some (DATA_INT (wind_dir buf))) /\
  data_get "wind_avg_m_s" d
  = (if wind_avg buf =? 0x1ff then None else Some (DATA_DOUBLE (tenths (wind_avg buf)))) /\
  data_get "wind_max_m_s" d
  = (if wind_max buf =? 0x1ff then None else Some (DATA_DOUBLE (tenths (wind_max buf)))) /\
  data_get "uv" d
  = (if uv_index buf =? 0xff then None else Some (DATA_DOUBLE (tenths (uv_index buf)))) /\
  data_get "lux" d
  = (if light_raw buf =? 0xffff then None
     else Some (DATA_DOUBLE (inject_Z (light_raw buf * 10)))).
Proof.
  cbv zeta. repeat split; destruct l; data_get_walk;
    match goal with |- context [negb ?c] => destruct c end; reflexivity.
Qed.




(** ** C3: the high bits kept in the flags byte *)

Lemma byte_at_set_byte_same (buf : list Z) (i : nat) (v : Z) :
  (i < List.length buf)%nat -> byte_at (set_byte buf i v) i = v.
Proof.
  unfold byte_at. revert i. induction buf as [| b rest IH]; intros [| i] Hi; simpl in *;
    try lia; auto with arith.
Qed.

Lemma byte_at_set_byte_other (buf : list Z) (i j : nat) (v : Z) :
  i <> j -> byte_at (set_byte buf i v) j = byte_at buf j.
Proof.
  unfold byte_at. revert i j. induction buf as [| b rest IH]; intros [| i] [| j] Hij; simpl;
    try reflexivity; try congruence. apply IH. congruence.
Qed.

Lemma shifted_flag (f : Z) :
  is_byte f ->
  Z.shiftl (Z.land f 0x10) 4 = (if Z.land f 0x10 =? 0 then 0 else 256) /\
  Z.shiftl (Z.land f 0x20) 3 = (if Z.land f 0x20 =? 0 then 0 else 256) /\
  Z.shiftl (Z.land f 0x40) 2 = (if Z.land f 0x40 =? 0 then 0 else 256) /\
  Z.shiftl (Z.land f 0x03) 8 = 256 * Z.land f 0x03 /\
  0 <= Z.land f 0x03 <= 3.
Proof.
  intros Hf.
  pose proof (byte_cases
    (fun f => (Z.shiftl (Z.land f 0x10) 4 =? (if Z.land f 0x10 =? 0 then 0 else 256))
              && (Z.shiftl (Z.land f 0x20) 3 =? (if Z.land f 0x20 =? 0 then 0 else 256))
              && (Z.shiftl (Z.land f 0x40) 2 =? (if Z.land f 0x40 =? 0 then 0 else 256))
              && (Z.shiftl (Z.land f 0x03) 8 =? 256 * Z.land f 0x03)
              && (0 <=? Z.land f 0x03) && (Z.land f 0x03 <=? 3))
    eq_refl f Hf) as H.
  rewrite !andb_true_iff, !Z.eqb_eq, !Z.leb_le in H. tauto.
Qed.

Lemma toggled_flag (f : Z) :
  is_byte f ->
  (Z.land (Z.lxor f 0x10) 0x10 =? 0) = negb (Z.land f 0x10 =? 0) /\
  (Z.land (Z.lxor f 0x20) 0x20 =? 0) = negb (Z.land f 0x20 =? 0) /\
  (Z.land (Z.lxor f 0x40) 0x40 =? 0) = negb (Z.land f 0x40 =? 0) /\
  Z.land (Z.lxor f 0x01) 0x03 = Z.land f 0x03 + (if Z.land f 0x01 =? 0 then 1 else -1) /\
  Z.land (Z.lxor f 0x02) 0x03 = Z.land f 0x03 + (if Z.land f 0x02 =? 0 then 2 else -2) /\
  is_byte (Z.lxor f 0x10) /\ is_byte (Z.lxor f 0x20) /\ is_byte (Z.lxor f 0x40) /\
  is_byte (Z.lxor f 0x01) /\ is_byte (Z.lxor f 0x02).
Proof.
  intros Hf.
  pose proof (byte_cases
    (fun f => Bool.eqb (Z.land (Z.lxor f 0x10) 0x10 =? 0) (negb (Z.land f 0x10 =? 0))
              && Bool.eqb (Z.land (Z.lxor f 0x20) 0x20 =? 0) (negb (Z.land f 0x20 =? 0))
              && Bool.eqb (Z.land (Z.lxor f 0x40) 0x40 =? 0) (negb (Z.land f 0x40 =? 0))
              && (Z.land (Z.lxor f 0x01) 0x03
                  =? Z.land f 0x03 + (if Z.land f 0x01 =? 0 then 1 else -1))
              && (Z.land (Z.lxor f 0x02) 0x03
                  =? Z.land f 0x03 + (if Z.land f 0x02 =? 0 then 2 else -2))
              && is_byteb (Z.lxor f 0x10) && is_byteb (Z.lxor f 0x20)
              && is_byteb (Z.lxor f 0x40) && is_byteb (Z.lxor f 0x01)
              && is_byteb (Z.lxor f 0x02))
    eq_refl f Hf) as H.
  unfold is_byteb, is_byte in *.
  rewrite !andb_true_iff, !Z.eqb_eq, !Z.leb_le, !Z.ltb_lt, !eqb_true_iff in H. tauto.
Qed.

(** A value of at most two bits above a byte: [or] is addition. *)
Lemma lor_above_byte (k lo : Z) :
  0 <= k <= 3 -> is_byte lo -> Z.lor (256 * k) lo = 256 * k + lo.
Proof.
  intros Hk Hlo.
  assert (Hcases : k = 0 \/ k = 1 \/ k = 2 \/ k = 3) by lia.
  pose proof (byte_cases
    (fun lo => (Z.lor 0 lo =? lo) && (Z.lor 256 lo =? 256 + lo)
               && (Z.lor 512 lo =? 512 + lo) && (Z.lor 768 lo =? 768 + lo))
    eq_refl lo Hlo) as H.
  rewrite !andb_true_iff, !Z.eqb_eq in H.
  destruct Hcases as [-> | [-> | [-> | ->]]]; simpl (256 * _); lia.
Qed.

(** The reconstructed raw values as sums. *)
Lemma raw_values (buf : list Z) :
  frame_ok buf ->
  temp_raw buf = 256 * Z.land (byte_at buf 7) 0x03 + byte_at buf 8 /\
  wind_avg buf = (if Z.land (byte_at buf 7) 0x10 =? 0 then 0 else 256) + byte_at buf 10 /\
  wind_dir buf = (if Z.land (byte_at buf 7) 0x20 =? 0 then 0 else 256) + byte_at buf 11 /\
  wind_max buf = (if Z.land (byte_at buf 7) 0x40 =? 0 then 0 else 256) + byte_at buf 12.
Proof.
  intros Hok.
  destruct (shifted_flag (byte_at buf 7) (frame_byte buf 7 Hok))
    as (Ha & Hd & Hm & Ht & Hrange).
  unfold temp_raw, wind_avg, wind_dir, wind_max. rewrite Ha, Hd, Hm, Ht.
  pose proof (lor_above_byte 0 _ ltac:(lia) (frame_byte buf 10 Hok)) as A0.
  pose proof (lor_above_byte 1 _ ltac:(lia) (frame_byte buf 10 Hok)) as A1.
  pose proof (lor_above_byte 0 _ ltac:(lia) (frame_byte buf 11 Hok)) as D0.
  pose proof (lor_above_byte 1 _ ltac:(lia) (frame_byte buf 11 Hok)) as D1.
  pose proof (lor_above_byte 0 _ ltac:(lia) (frame_byte buf 12 Hok)) as M0.
  pose proof (lor_above_byte 1 _ ltac:(lia) (frame_byte buf 12 Hok)) as M1.
  simpl (256 * _) in A0, A1, D0, D1, M0, M1.
  rewrite (lor_above_byte _ _ Hrange (frame_byte buf 8 Hok)).
  repeat split;
    match goal with |- context [if ?c then _ else _] => destruct c end; assumption.
Qed.

Lemma set_byte_frame_ok (buf : list Z) (i : nat) (v : Z) :
  frame_ok buf -> is_byte v -> frame_ok (set_byte buf i v).
Proof.
  unfold frame_ok. generalize 32%nat as n. revert i.
  induction buf as [| b rest IH]; intros i n [Hlen Hall] Hv; simpl.
  - destruct i; auto.
  - inversion Hall as [| ? ? Hb Hrest]; subst. destruct i as [| i]; simpl in *.
    + auto.
    + destruct (IH i (List.length rest) (conj eq_refl Hrest) Hv) as [Hl Hf].
      split; [congruence | constructor; assumption].
Qed.

Lemma toggle_flag_raw_values (buf : list Z) :
  frame_ok buf ->
  wind_avg (toggle_flag buf 0x10)
  = wind_avg buf + (if Z.land (byte_at buf 7) 0x10 =? 0 then 256 else -256) /\
  wind_dir (toggle_flag buf 0x20)
  = wind_dir buf + (if Z.land (byte_at buf 7) 0x20 =? 0 then 256 else -256) /\
  wind_max (toggle_flag buf 0x40)
  = wind_max buf + (if Z.land (byte_at buf 7) 0x40 =? 0 then 256 else -256) /\
  temp_raw (toggle_flag buf 0x01)
  = temp_raw buf + (if Z.land (byte_at buf 7) 0x01 =? 0 then 256 else -256) /\
  temp_raw (toggle_flag buf 0x02)
  = temp_raw buf + (if Z.land (byte_at buf 7) 0x02 =? 0 then 512 else -512).
Proof.
  intros Hok.
  assert (H7 : (7 < List.length buf)%nat) by (destruct Hok as [-> _]; lia).
  destruct (toggled_flag _ (frame_byte buf 7 Hok))
    as (Ta & Td & Tm & T1 & T2 & Ba & Bd & Bm & B1 & B2).
  destruct (raw_values buf Hok) as (Rt & Ra & Rd & Rm).
  destruct (raw_values _ (set_byte_frame_ok buf 7 _ Hok Ba)) as (_ & Ra' & _ & _).
  destruct (raw_values _ (set_byte_frame_ok buf 7 _ Hok Bd)) as (_ & _ & Rd' & _).
  destruct (raw_values _ (set_byte_frame_ok buf 7 _ Hok Bm)) as (_ & _ & _ & Rm').
  destruct (raw_values _ (set_byte_frame_ok buf 7 _ Hok B1)) as (Rt1 & _).
  destruct (raw_values _ (set_byte_frame_ok buf 7 _ Hok B2)) as (Rt2 & _).
  unfold toggle_flag.
  rewrite Ra', Rd', Rm', Rt1, Rt2, Rt, Ra, Rd, Rm.
  rewrite !byte_at_set_byte_same by exact H7.
  rewrite !byte_at_set_byte_other by discriminate.
  rewrite Ta, Td, Tm, T1, T2.
  repeat split;
    match goal with |- context [Z.land ?f ?m =? 0] => destruct (Z.land f m =? 0) end;
    simpl negb; cbv iota; lia.
Qed.

(** C3: in an accepted frame, toggling only the flag bit of byte 7 that
    belongs to a measurement, every other byte unchanged, moves the
    reconstructed raw value by exactly 256, up when the bit gets set and down
    when it gets cleared: bit 0x10 for the wind average, 0x20 for the wind
    direction, 0x40 for the gust; for the temperature the flag bits 0x03 are
    bits 8 and 9 of the raw value, bit 0x01 worth 256 and bit 0x02 worth
    512. *)
Theorem C3_flag_bits_are_high_bits (l : layout) (bitbuffer : bitbuffer_t) :
  accepted l bitbuffer = true ->
  let buf := extracted l bitbuffer in
  let step (mask amount : Z) :=
    if Z.land (byte_at buf 7) mask =? 0 then amount else - amount in
  (forall mask i, i <> 7%nat -> byte_at (toggle_flag buf mask) i = byte_at buf i) /\
  wind_avg (toggle_flag buf 0x10) = wind_avg buf + step 0x10 256 /\
  wind_dir (toggle_flag buf 0x20) = wind_dir buf + step 0x20 256 /\
  wind_max (toggle_flag buf 0x40) = wind_max buf + step 0x40 256 /\
  temp_raw (toggle_flag buf 0x01) = temp_raw buf + step 0x01 256 /\
  temp_raw (toggle_flag buf 0x02) = temp_raw buf + step 0x02 512 /\
  temp_raw buf = 256 * Z.land (byte_at buf 7) 0x03 + byte_at buf 8.
Proof.
  intros _ buf step.
  pose proof (extracted_frame_ok l bitbuffer) as Hok. fold buf in Hok.
  destruct (toggle_flag_raw_values buf Hok) as (Ha & Hd & Hm & H1 & H2).
  destruct (raw_values buf Hok) as (Rt & _).
  split.
  - intros mask i Hi. apply byte_at_set_byte_other. congruence.
  - unfold step. simpl (- _). tauto.
Qed.

Lemma C3_flag_bits_are_high_bits_witness :
  let buf := extracted LayoutB (on_air LayoutB ws90_sample) in
  accepted LayoutB (on_air LayoutB ws90_sample) = true /\
  wind_avg buf = 0 /\ wind_avg (toggle_flag buf 0x10) = 256 /\
  temp_raw buf = 610 /\ temp_raw (toggle_flag buf 0x02) = 98.
Proof.
  cbv zeta.
  assert (Hacc : accepted LayoutB (on_air LayoutB ws90_sample) = true)
    by (vm_compute; reflexivity).
  destruct (C3_flag_bits_are_high_bits _ _ Hacc) as (_ & Ha & _ & _ & _ & H2 & _).
  cbv zeta in Ha, H2.
  split; [exact Hacc |].
  split; [vm_compute; reflexivity |].
  split; [rewrite Ha; vm_compute; reflexivity |].
  split; [vm_compute; reflexivity |].
  rewrite H2; vm_compute; reflexivity.
Defined.

(** ** C4: the battery level *)

Lemma battery_lvl_below_floor (buf : list Z) :
  battery_mv buf < 1680 -> VariantA.battery_lvl buf = 0 /\ VariantB.battery_lvl buf = 0.
Proof.
  intros H. unfold VariantA.battery_lvl, VariantB.battery_lvl.
  apply Z.ltb_lt in H. rewrite H. split; reflexivity.
Qed.

Lemma battery_lvl_monotone (buf buf' : list Z) :
  battery_mv buf <= battery_mv buf' ->
  VariantA.battery_lvl buf <= VariantA.battery_lvl buf' /\
  VariantB.battery_lvl buf <= VariantB.battery_lvl buf'.
Proof.
  intros Hle. unfold VariantA.battery_lvl, VariantB.battery_lvl. cbv zeta.
  destruct (Z.ltb_spec (battery_mv buf) 1680), (Z.ltb_spec (battery_mv buf') 1680);
    try (simpl; lia);
    rewrite ?Z.quot_div_nonneg by lia.
  - assert (0 <= (battery_mv buf' - 1680) / 16) by (apply Z.div_pos; lia).
    split; [assumption |].
    destruct (Z.gtb_spec ((battery_mv buf' - 1680) / 16) 100); simpl; lia.
  - assert ((battery_mv buf - 1680) / 16 <= (battery_mv buf' - 1680) / 16)
      by (apply Z.div_le_mono; lia).
    split; [assumption |].
    destruct (Z.gtb_spec ((battery_mv buf - 1680) / 16) 100),
      (Z.gtb_spec ((battery_mv buf' - 1680) / 16) 100); lia.
Qed.

Lemma battery_lvl_clamped_in_second_revision (buf : list Z) :
  0 <= VariantB.battery_lvl buf <= 100.
Proof.
  unfold VariantB.battery_lvl. cbv zeta.
  destruct (Z.ltb_spec (battery_mv buf) 1680).
  - simpl. lia.
  - rewrite Z.quot_div_nonneg by lia.
    assert (0 <= (battery_mv buf - 1680) / 16) by (apply Z.div_pos; lia).
    destruct (Z.gtb_spec ((battery_mv buf - 1680) / 16) 100); lia.
Qed.

(** C4, at the inputs where the code leaves the claim: a battery byte of 0x96
    is 3000 mV and gives level 82 in both revisions (the scale reaches 100
    only at 3280 mV), and a battery byte of 0xff gives level 213 in the first
    revision, which does not clamp; byte 0x54, 1680 mV, gives level 0. *)
Theorem C4_battery_level_at_3000_mV :
  let lvl (l : layout) (packet : list Z) :=
    data_get "battery_ok" (record l (extracted l (on_air l packet))) in
  (accepted LayoutA (on_air LayoutA ws90_3000mV) = true /\
   accepted LayoutB (on_air LayoutB ws90_3000mV) = true /\
   battery_mv ws90_3000mV = 3000 /\
   lvl LayoutA ws90_3000mV = Some (DATA_DOUBLE (82 # 100)) /\
   lvl LayoutB ws90_3000mV = Some (DATA_DOUBLE (82 # 100))) /\
  (accepted LayoutA (on_air LayoutA ws90_5100mV) = true /\
   battery_mv ws90_5100mV = 5100 /\
   lvl LayoutA ws90_5100mV = Some (DATA_DOUBLE (213 # 100)) /\
   lvl LayoutB ws90_5100mV = Some (DATA_DOUBLE (100 # 100))) /\
  (forall buf, byte_at buf 6 = 0x54 ->
               battery_mv buf = 1680 /\
               VariantA.battery_lvl buf = 0 /\ VariantB.battery_lvl buf = 0).
Proof.
  cbv zeta. split; [| split].
  - vm_compute. repeat split; reflexivity.
  - vm_compute. repeat split; reflexivity.
  - intros buf H. unfold VariantA.battery_lvl, VariantB.battery_lvl, battery_mv.
    rewrite H. repeat split; reflexivity.
Qed.

(** ** C5: return values *)

(** C5, as the claim states it, fails: a row of 96 bits is a length abort, a
    row of 320 bits whose sync pattern leaves 136 bits is a short frame, and
    both return [DECODE_ABORT_LENGTH]. *)
Lemma C5_length_abort_and_short_frame_share_a_code :
  abort_cause LayoutA row_96_bits = Some LengthAbort /\
  abort_cause LayoutA row_cut_short = Some ShortFrame /\
  bitbuffer_search row_cut_short 0 0 VariantA.preamble 24 = 160 /\
  ~ fst (decode LayoutA row_96_bits) <> fst (decode LayoutA row_cut_short).
Proof.
  repeat split; try (vm_compute; reflexivity).
  intros H. apply H. vm_compute. reflexivity.
Qed.

(** C5 (amended): the decoder returns 1 exactly when it emits a record; each
    abort returns a non-positive code and emits nothing; length abort and
    short frame both return [DECODE_ABORT_LENGTH], family mismatch returns
    [DECODE_ABORT_EARLY] and integrity failure [DECODE_FAIL_MIC], and apart
    from the first two no two causes share a code. *)
Theorem C5_return_codes (l : layout) (bitbuffer : bitbuffer_t) :
  (fst (decode l bitbuffer) = 1 <-> produces_record l bitbuffer) /\
  match abort_cause l bitbuffer with
  | None =>
      fst (decode l bitbuffer) = 1 /\
      emitted (snd (decode l bitbuffer)) = [record l (extracted l bitbuffer)]
  | Some a =>
      fst (decode l bitbuffer) = abort_code a /\ abort_code a <= 0 /\
      emitted (snd (decode l bitbuffer)) = []
  end /\
  abort_code LengthAbort = DECODE_ABORT_LENGTH /\
  abort_code ShortFrame = DECODE_ABORT_LENGTH /\
  abort_code FamilyMismatch = DECODE_ABORT_EARLY /\
  abort_code IntegrityFailure = DECODE_FAIL_MIC /\
  (forall a1 a2, abort_code a1 = abort_code a2 <->
                 a1 = a2 \/ (a1 = LengthAbort /\ a2 = ShortFrame)
                 \/ (a1 = ShortFrame /\ a2 = LengthAbort)).
Proof.
  split; [| split].
  - unfold produces_record. rewrite decode_unfold; cbv zeta.
    destruct (bad_length l bitbuffer), (short_package l bitbuffer),
      (family_mismatch (extracted l bitbuffer)), (mic_failure (extracted l bitbuffer));
      simpl; split; intros H; try discriminate; try reflexivity; now elim H.
  - unfold abort_cause. rewrite decode_unfold; cbv zeta.
    destruct (bad_length l bitbuffer), (short_package l bitbuffer),
      (family_mismatch (extracted l bitbuffer)), (mic_failure (extracted l bitbuffer));
      simpl; repeat split; discriminate.
  - repeat split; try reflexivity.
    + destruct a1, a2; simpl; intros H; try discriminate H; auto.
    + intros [-> | [[-> ->] | [-> ->]]]; reflexivity.
Qed.

(** ** C6: the length window *)

(** C6: a row whose bit length is outside [280, 350] (first revision) or
    outside [168, 330] (second revision) makes the decoder return
    [DECODE_ABORT_LENGTH] with no library call made: neither the preamble
    search nor the byte extraction has happened. *)
Theorem C6_length_abort_before_search (l : layout) (bitbuffer : bitbuffer_t) :
  match l with
  | LayoutA => row_bits bitbuffer 0 < 280 \/ 350 < row_bits bitbuffer 0
  | LayoutB => row_bits bitbuffer 0 < 168 \/ 330 < row_bits bitbuffer 0
  end ->
  decode l bitbuffer = (DECODE_ABORT_LENGTH, []) /\
  existsb is_locator_call (snd (decode l bitbuffer)) = false.
Proof.
  intros H.
  assert (Hbad : bad_length l bitbuffer = true).
  { unfold bad_length. apply orb_true_iff. rewrite Z.ltb_lt, Z.gtb_ltb, Z.ltb_lt.
    destruct l; exact H. }
  rewrite decode_unfold, Hbad. split; reflexivity.
Qed.

Lemma C6_length_abort_before_search_witness :
  (row_bits row_96_bits 0 = 96 /\
   decode LayoutA row_96_bits = (DECODE_ABORT_LENGTH, [])) /\
  (row_bits row_400_bits 0 = 400 /\
   decode LayoutB row_400_bits = (DECODE_ABORT_LENGTH, [])).
Proof.
  split; (split; [reflexivity |]).
  - apply (C6_length_abort_before_search LayoutA row_96_bits). left. vm_compute. reflexivity.
  - apply (C6_length_abort_before_search LayoutB row_400_bits). right. vm_compute. reflexivity.
Defined.

(** ** C7: the family code *)

(** C7: an extracted buffer whose byte 0 is not 0x90 makes the decoder return
    [DECODE_ABORT_EARLY]; neither [crc8] nor [add_bytes] has been called, and
    no record is emitted. *)
Theorem C7_family_mismatch_before_checksums (l : layout) (bitbuffer : bitbuffer_t) :
  reaches_family_check l bitbuffer = true ->
  byte_at (extracted l bitbuffer) 0 <> 0x90 ->
  fst (decode l bitbuffer) = DECODE_ABORT_EARLY /\
  existsb is_checksum_call (snd (decode l bitbuffer)) = false /\
  emitted (snd (decode l bitbuffer)) = [].
Proof.
  intros Hreach Hfam.
  rewrite (decode_family_mismatch l bitbuffer Hreach).
  - repeat split; reflexivity.
  - unfold family_mismatch. apply negb_true_iff, Z.eqb_neq, Hfam.
Qed.

Lemma C7_family_mismatch_before_checksums_witness :
  reaches_family_check LayoutA (on_air LayoutA ws80_sample) = true /\
  byte_at (extracted LayoutA (on_air LayoutA ws80_sample)) 0 = 0x80 /\
  fst (decode LayoutA (on_air LayoutA ws80_sample)) = DECODE_ABORT_EARLY.
Proof.
  split; [vm_compute; reflexivity | split; [vm_compute; reflexivity |]].
  apply (C7_family_mismatch_before_checksums LayoutA (on_air LayoutA ws80_sample)).
  - vm_compute; reflexivity.
  - vm_compute; discriminate.
Defined.

(** ** C8: the packet of the protocol description *)





(** ** C9: bytes without a meaning *)

Lemma sprintf_0x_2_byte (b : Z) :
  is_byte b ->
  exists c1 c2, sprintf_0x 2 b = String c1 (String c2 "")
                /\ hex_value (String c1 (String c2 "")) = b.
Proof.
  intros Hb.
  pose proof (byte_cases
    (fun b => Nat.eqb (String.length (sprintf_0x 2 b)) 2 && (hex_value (sprintf_0x 2 b) =? b))
    eq_refl b Hb) as H.
  apply andb_true_iff in H. destruct H as [Hlen Hval].
  apply Nat.eqb_eq in Hlen. apply Z.eqb_eq in Hval.
  destruct (sprintf_0x 2 b) as [| c1 [| c2 [| c3 rest]]]; try discriminate.
  exists c1, c2. auto.
Qed.

Ltac hex_pair buf Hok i :=
  let c1 := fresh "c" in
  let c2 := fresh "c" in
  let E := fresh "E" in
  let V := fresh "V" in
  destruct (sprintf_0x_2_byte _ (frame_byte buf i Hok)) as (c1 & c2 & E & V);
  rewrite E; clear E.

(** The opaque fields hold their bytes readably: the first revision bytes
    15-18, 21-24 and 25-29 in [g1], [g2], [g3], the second revision bytes
    14-18 and 22-28 in [data]. *)
Lemma opaque_fields_keep_their_bytes (buf : list Z) :
  frame_ok buf ->
  (map (byte_of_text (VariantA.g1 buf)) [0; 3; 6; 9] = map (byte_at buf) [15; 16; 17; 18]
   /\ map (byte_of_text (VariantA.g2 buf)) [0; 3; 6; 9] = map (byte_at buf) [21; 22; 23; 24]
   /\ map (byte_of_text (VariantA.g3 buf)) [0; 3; 6; 9; 12]
      = map (byte_at buf) [25; 26; 27; 28; 29])%nat /\
  (map (byte_of_text (VariantB.extra buf)) [0; 2; 4; 6; 8; 16; 18; 20; 22; 24; 26; 28]
   = map (byte_at buf) [14; 15; 16; 17; 18; 22; 23; 24; 25; 26; 27; 28])%nat.
Proof.
  intros Hok.
  unfold VariantA.g1, VariantA.g2, VariantA.g3, VariantB.extra, sprintf_bytes, byte_of_text.
  cbn [map String.concat].
  split; [split; [| split] |].
  - hex_pair buf Hok 15%nat. hex_pair buf Hok 16%nat. hex_pair buf Hok 17%nat.
    hex_pair buf Hok 18%nat. cbn [map append substring]; congruence.
  - hex_pair buf Hok 21%nat. hex_pair buf Hok 22%nat. hex_pair buf Hok 23%nat.
    hex_pair buf Hok 24%nat. cbn [map append substring]; congruence.
  - hex_pair buf Hok 25%nat. hex_pair buf Hok 26%nat. hex_pair buf Hok 27%nat.
    hex_pair buf Hok 28%nat. hex_pair buf Hok 29%nat. cbn [map append substring]; congruence.
  - hex_pair buf Hok 14%nat. hex_pair buf Hok 15%nat. hex_pair buf Hok 16%nat.
    hex_pair buf Hok 17%nat. hex_pair buf Hok 18%nat. hex_pair buf Hok 22%nat.
    hex_pair buf Hok 23%nat. hex_pair buf Hok 24%nat. hex_pair buf Hok 25%nat.
    hex_pair buf Hok 26%nat. hex_pair buf Hok 27%nat. hex_pair buf Hok 28%nat.
    cbn [map append substring]; congruence.
Qed.

(** No field of the first revision's record reads byte 14. *)
Lemma first_revision_ignores_byte_14 (buf : list Z) (v : Z) :
  VariantA.data (set_byte buf 14 v) = VariantA.data buf.
Proof.
  unfold VariantA.data, id_str, id, VariantA.battery_lvl, battery_mv, temp_c, temp_raw,
    humidity, wind_dir, wind_avg, wind_max, uv_index, light_lux, light_raw, VariantA.rain,
    VariantA.rain_raw, flags, VariantA.g1, VariantA.g2, VariantA.g3.
  rewrite !(byte_at_set_byte_other buf 14) by discriminate. reflexivity.
Qed.

(** C9, at the input where the first revision leaves the claim: two accepted
    frames that differ in byte 14 (0xff and 0x3f; bytes 30 and 31 follow)
    give the same record, [g1] starting at byte 15, so byte 14 is in no field
    of the record; the second revision shows the byte at the head of
    [data]. *)
Theorem C9_byte_14_missing_from_first_revision :
  let one := on_air LayoutA ws90_from_ws80_sample in
  let other := on_air LayoutA ws90_other_byte_14 in
  accepted LayoutA one = true /\ accepted LayoutA other = true /\
  byte_at (extracted LayoutA one) 14 = 0xff /\
  byte_at (extracted LayoutA other) 14 = 0x3f /\
  emitted (snd (decode LayoutA one)) = emitted (snd (decode LayoutA other)) /\
  data_get "g1" (record LayoutA ws90_from_ws80_sample) = Some (DATA_STRING "ff d8 df 00") /\
  data_get "data" (record LayoutB ws90_from_ws80_sample)
  = Some (DATA_STRING "ffffd8df00------00000000000000") /\
  data_get "data" (record LayoutB ws90_other_byte_14)
  = Some (DATA_STRING "3fffd8df00------00000000000000").
Proof.
  cbv zeta. vm_compute. repeat split; reflexivity.
Qed.

(** ** C10: the supercap voltage *)

Lemma supercap_V_range (buf : list Z) : 0 <= VariantB.supercap_V buf <= 0x3f.
Proof.
  unfold VariantB.supercap_V.
  change 0x3f with (Z.ones 6). rewrite Z.land_ones by lia.
  pose proof (Z.mod_pos_bound (byte_at buf 21) (2 ^ 6) ltac:(lia)).
  change (Z.ones 6) with 63. change (2 ^ 6) with 64 in *. lia.
Qed.

(** C10: in the second revision the supercap voltage is [buf[21] & 0x3f], at
    most 0x3f, so the condition [supercap_V != 0xff] holds for every accepted
    frame and every record carries the field [supercap_V]. *)
Theorem C10_supercap_field_always_present (bitbuffer : bitbuffer_t) (d : data_t) :
  In d (emitted (snd (decode LayoutB bitbuffer))) ->
  let buf := extracted LayoutB bitbuffer in
  VariantB.supercap_V buf = Z.land (byte_at buf 21) 0x3f /\
  0 <= VariantB.supercap_V buf <= 0x3f /\
  negb (VariantB.supercap_V buf =? 0xff) = true /\
  data_has "supercap_V" d = true /\
  data_get "supercap_V" d = Some (DATA_DOUBLE (tenths (VariantB.supercap_V buf))).
Proof.
  intros Hin buf.
  destruct (emitted_inv _ _ _ Hin) as [_ ->]. fold buf.
  pose proof (supercap_V_range buf) as Hrange.
  assert (Hcond : (VariantB.supercap_V buf =? 0xff) = false) by (apply Z.eqb_neq; lia).
  assert (Hget : data_get "supercap_V" (record LayoutB buf)
                 = Some (DATA_DOUBLE (tenths (VariantB.supercap_V buf))))
    by (data_get_walk; rewrite Hcond; reflexivity).
  split; [reflexivity |]. split; [exact Hrange |].
  split; [rewrite Hcond; reflexivity |]. split; [| exact Hget].
  destruct (data_has "supercap_V" (record LayoutB buf)) eqn:Hhas; [reflexivity |].
  apply data_has_get in Hhas. congruence.
Qed.

Lemma C10_supercap_field_always_present_witness :
  In (record LayoutB ws90_sample) (emitted (snd (decode LayoutB (on_air LayoutB ws90_sample)))) /\
  data_get "supercap_V" (record LayoutB ws90_sample) = Some (DATA_DOUBLE (38 # 10)).
Proof.
  assert (Hin : In (record LayoutB ws90_sample)
                   (emitted (snd (decode LayoutB (on_air LayoutB ws90_sample)))))
    by (vm_compute; left; reflexivity).
  split; [exact Hin |].
  destruct (C10_supercap_field_always_present _ _ Hin) as (_ & _ & _ & _ & Hget).
  rewrite Hget. vm_compute. reflexivity.
Defined.

(** * Further properties of the decoder *)

Lemma bytes_by_check (bytes : list Z) : forallb is_byteb bytes = true -> Forall is_byte bytes.
Proof.
  intros H. rewrite forallb_forall in H. apply Forall_forall. intros b Hb.
  specialize (H b Hb). unfold is_byteb in H. unfold is_byte.
  apply andb_true_iff in H. destruct H as [H1 H2].
  apply Z.leb_le in H1. apply Z.ltb_lt in H2. lia.
Qed.

Lemma frame_ok_by_check (buf : list Z) :
  Nat.eqb (List.length buf) 32 && forallb is_byteb buf = true -> frame_ok buf.
Proof.
  intros H. apply andb_true_iff in H. destruct H as [Hlen Hall].
  split; [apply Nat.eqb_eq, Hlen | apply bytes_by_check, Hall].
Qed.

(** ** The declared fields *)

(** X1: the keys of a record are the declared output fields that are present,
    in the declared order; the declared names are pairwise different; and
    [model], [id], [battery_ok], [battery_mV], [rain_mm], [flags] and [mic]
    are in every record. *)
Theorem record_keys_follow_output_fields (l : layout) (buf : list Z) :
  let d := record l buf in
  map key d = filter (fun k => data_has k d) (output_fields l) /\
  NoDup (output_fields l) /\
  data_has "model" d = true /\ data_has "id" d = true /\ data_has "battery_ok" d = true /\
  data_has "battery_mV" d = true /\ data_has "rain_mm" d = true /\
  data_has "flags" d = true /\ data_has "mic" d = true.
Proof.
  cbv zeta.
  assert (Hnodup : NoDup (output_fields l)).
  { destruct l; unfold output_fields, VariantA.output_fields, VariantB.output_fields;
      repeat (constructor; [simpl; intuition discriminate |]); constructor. }
  split; [| split; [exact Hnodup |]].
  - destruct l; unfold record, VariantA.data, VariantB.data, data_make, DATA_COND, entry;
      cbn [List.concat app];
      destruct (temp_raw buf =? 0x3ff), (humidity buf =? 0xff), (wind_dir buf =? 0x1ff),
        (wind_avg buf =? 0x1ff), (wind_max buf =? 0x1ff), (uv_index buf =? 0xff),
        (light_raw buf =? 0xffff);
      try destruct (VariantB.supercap_V buf =? 0xff);
      vm_compute; reflexivity.
  - repeat split;
      match goal with
      | |- data_has ?k ?d = true =>
          destruct (data_has k d) eqn:Hhas; [reflexivity |];
          apply data_has_get in Hhas; revert Hhas; destruct l; data_get_walk; discriminate
      end.
Qed.

(** ** Arithmetic of the shifts *)

Lemma lor_shiftl_add (h lo n : Z) :
  0 <= n -> 0 <= lo < 2 ^ n -> Z.lor (Z.shiftl h n) lo = h * 2 ^ n + lo.
Proof.
  intros Hn Hlo.
  rewrite Z.shiftl_mul_pow2 by exact Hn.
  rewrite <- (Z.add_lor_land (h * 2 ^ n) lo).
  assert (Hland : Z.land (h * 2 ^ n) lo = 0).
  { apply Z.bits_inj'. intros i Hi.
    rewrite Z.land_spec, Z.bits_0.
    destruct (Z.lt_ge_cases i n) as [Hlt | Hge].
    - rewrite Z.mul_pow2_bits_low by exact Hlt. reflexivity.
    - rewrite <- (Z.mod_small lo (2 ^ n)) by exact Hlo.
      rewrite Z.mod_pow2_bits_high by lia. apply andb_false_r. }
  rewrite Hland. lia.
Qed.

Lemma big_endian_values (buf : list Z) :
  frame_ok buf ->
  id buf = 65536 * byte_at buf 1 + 256 * byte_at buf 2 + byte_at buf 3 /\
  light_raw buf = 256 * byte_at buf 4 + byte_at buf 5 /\
  VariantA.rain_raw buf = 256 * (byte_at buf 19 mod 16) + byte_at buf 20 /\
  VariantB.rain_raw buf = 256 * byte_at buf 19 + byte_at buf 20 /\
  VariantB.supercap_V buf = byte_at buf 21 mod 64.
Proof.
  intros Hok.
  pose proof (frame_byte buf 2 Hok) as H2. pose proof (frame_byte buf 3 Hok) as H3.
  pose proof (frame_byte buf 5 Hok) as H5. pose proof (frame_byte buf 20 Hok) as H20.
  unfold is_byte in *.
  unfold id, light_raw, VariantA.rain_raw, VariantB.rain_raw, VariantB.supercap_V.
  change 16 with (8 + 8) at 1. rewrite <- Z.shiftl_shiftl by lia.
  rewrite <- Z.shiftl_lor.
  change 0x0f with (Z.ones 4). change 0x3f with (Z.ones 6).
  rewrite !Z.land_ones by lia.
  rewrite !(lor_shiftl_add _ _ 8) by (change (2 ^ 8) with 256; lia).
  change (2 ^ 8) with 256. change (2 ^ 4) with 16. change (2 ^ 6) with 64.
  repeat split; lia.
Qed.

(** ** Hexadecimal text *)

Lemma hex_digit_value_digit (d : Z) : 0 <= d < 16 -> hex_digit_value (hex_digit d) = d.
Proof.
  intros Hd.
  pose proof (byte_cases
    (fun d => (16 <=? d) || (hex_digit_value (hex_digit d) =? d)) eq_refl d) as H.
  unfold is_byte in H. specialize (H ltac:(lia)).
  apply orb_true_iff in H. destruct H as [H | H].
  - apply Z.leb_le in H. lia.
  - apply Z.eqb_eq, H.
Qed.

Lemma hex_value_digits (fuel k : nat) (n : Z) (acc : string) :
  (1 <= k <= fuel)%nat -> 0 <= n < 16 ^ Z.of_nat k ->
  hex_value_from 0 (hex_digits fuel n acc) = hex_value_from n acc /\
  (String.length acc < String.length (hex_digits fuel n acc) <= String.length acc + k)%nat.
Proof.
  revert k n acc. induction fuel as [| fuel IH]; intros k n acc Hk Hn; [lia |].
  cbn [hex_digits]. cbv zeta.
  assert (Hdigit : hex_digit_value (hex_digit (n mod 16)) = n mod 16)
    by (apply hex_digit_value_digit, Z.mod_pos_bound; lia).
  assert (Hstep : hex_value_from (n / 16) (String (hex_digit (n mod 16)) acc)
                  = hex_value_from n acc).
  { unfold hex_value_from. cbn [list_ascii_of_string fold_left]. rewrite Hdigit.
    f_equal. pose proof (Z.div_mod n 16 ltac:(lia)). lia. }
  destruct (Z.eqb_spec (n / 16) 0) as [Hz | Hnz].
  - rewrite <- Hstep, Hz. split; [reflexivity | simpl; lia].
  - destruct k as [| k]; [lia |].
    assert (Hq : 0 <= n / 16 < 16 ^ Z.of_nat k).
    { rewrite Nat2Z.inj_succ, Z.pow_succ_r in Hn by lia.
      split; [apply Z.div_pos; lia | apply Z.div_lt_upper_bound; lia]. }
    assert (Hk' : (1 <= k <= fuel)%nat).
    { destruct k; [simpl in Hq; lia | lia]. }
    destruct (IH k (n / 16) (String (hex_digit (n mod 16)) acc) Hk' Hq) as [Hval Hlen].
    split; [rewrite Hval; exact Hstep | simpl in Hlen; lia].
Qed.

Lemma zero_pad_value (k : nat) (s : string) :
  hex_value_from 0 (zero_pad k s) = hex_value_from 0 s /\
  String.length (zero_pad k s) = (k + String.length s)%nat.
Proof.
  induction k as [| k [IHv IHl]]; [split; reflexivity |].
  split; [| simpl; rewrite IHl; reflexivity].
  simpl zero_pad. unfold hex_value_from in *. cbn [list_ascii_of_string fold_left].
  exact IHv.
Qed.

(** [%0<width>x] of a value of at most [k] hex digits reads back as the value
    and is [width] characters long when [k <= width]. *)
Lemma sprintf_0x_reads_back (width k : nat) (n : Z) :
  (1 <= k <= 8)%nat -> 0 <= n < 16 ^ Z.of_nat k ->
  hex_value (sprintf_0x width n) = n /\
  (width <= String.length (sprintf_0x width n) <= Nat.max width k)%nat.
Proof.
  intros Hk Hn. unfold sprintf_0x. cbv zeta.
  destruct (hex_value_digits 8 k n "" Hk Hn) as [Hval Hlen].
  destruct (zero_pad_value (width - String.length (hex_digits 8 n ""))
                           (hex_digits 8 n "")) as [Hpv Hpl].
  split.
  - change (hex_value ?s) with (hex_value_from 0 s). rewrite Hpv, Hval. reflexivity.
  - rewrite Hpl. change (String.length "") with 0%nat in Hlen. lia.
Qed.

(** X2: the id is the big-endian value of bytes 1-3, below [2^24]; the id
    string has exactly six characters and reads back, as hexadecimal text, to
    the id. *)
Theorem id_str_reads_back (buf : list Z) :
  frame_ok buf ->
  id buf = 65536 * byte_at buf 1 + 256 * byte_at buf 2 + byte_at buf 3 /\
  0 <= id buf < 2 ^ 24 /\
  String.length (id_str buf) = 6%nat /\
  hex_value (id_str buf) = id buf.
Proof.
  intros Hok.
  destruct (big_endian_values buf Hok) as (Hid & _).
  pose proof (frame_byte buf 1 Hok) as H1. pose proof (frame_byte buf 2 Hok) as H2.
  pose proof (frame_byte buf 3 Hok) as H3. unfold is_byte in *.
  assert (Hrange : 0 <= id buf < 16 ^ Z.of_nat 6)
    by (rewrite Hid; change (16 ^ Z.of_nat 6) with 16777216; lia).
  destruct (sprintf_0x_reads_back 6 6 (id buf) ltac:(lia) Hrange) as [Hval Hlen].
  unfold id_str. repeat split; try assumption; try lia.
Qed.

Lemma id_str_reads_back_witness :
  frame_ok ws90_sample /\ id_str ws90_sample = "00342b" /\
  hex_value (id_str ws90_sample) = 0x00342b.
Proof.
  assert (Hok : frame_ok ws90_sample) by (apply frame_ok_by_check; reflexivity).
  destruct (id_str_reads_back ws90_sample Hok) as (_ & _ & _ & Hvalue).
  split; [exact Hok | split; [vm_compute; reflexivity |]].
  rewrite Hvalue. vm_compute. reflexivity.
Defined.


Lemma tenths_between (x lo hi : Z) :
  lo <= x <= hi -> (tenths lo <= tenths x <= tenths hi)%Q.
Proof.
  intros H. unfold tenths, Qle, Qmult, inject_Z. simpl. lia.
Qed.



(** X4: the rain total has no sentinel and is in every record.  The second
    revision reads all sixteen bits of bytes 19-20 (0 to 6553.5 mm); the first
    revision keeps the low twelve bits, so it shows the second revision's
    value modulo 4096 (0 to 409.5 mm). *)
Theorem rain_total_of_both_revisions (buf : list Z) :
  frame_ok buf ->
  VariantB.rain_raw buf = 256 * byte_at buf 19 + byte_at buf 20 /\
  VariantA.rain_raw buf = VariantB.rain_raw buf mod 4096 /\
  0 <= VariantA.rain_raw buf <= 4095 /\
  0 <= VariantB.rain_raw buf <= 65535 /\
  data_get "rain_mm" (record LayoutA buf) = Some (DATA_DOUBLE (tenths (VariantA.rain_raw buf))) /\
  data_get "rain_mm" (record LayoutB buf) = Some (DATA_DOUBLE (tenths (VariantB.rain_raw buf))).
Proof.
  intros Hok.
  destruct (big_endian_values buf Hok) as (_ & _ & Ha & Hb & _).
  pose proof (frame_byte buf 19 Hok) as H19. pose proof (frame_byte buf 20 Hok) as H20.
  unfold is_byte in *.
  split; [exact Hb |].
  split.
  { rewrite Ha, Hb.
    pose proof (Z.mod_pos_bound (byte_at buf 19) 16 ltac:(lia)) as Hm.
    pose proof (Z.div_mod (byte_at buf 19) 16 ltac:(lia)) as Hd.
    apply (Z.mod_unique _ _ (byte_at buf 19 / 16)); [left |]; lia. }
  pose proof (Z.mod_pos_bound (byte_at buf 19) 16 ltac:(lia)) as Hm.
  split; [rewrite Ha; lia |]. split; [rewrite Hb; lia |].
  split; data_get_walk; reflexivity.
Qed.

Lemma rain_total_of_both_revisions_witness :
  let buf := set_byte (set_byte ws90_sample 19 0x12) 20 0x34 in
  frame_ok buf /\ VariantB.rain_raw buf = 0x1234 /\ VariantA.rain_raw buf = 0x1234 mod 4096.
Proof.
  cbv zeta.
  assert (Hok : frame_ok (set_byte (set_byte ws90_sample 19 0x12) 20 0x34))
    by (apply frame_ok_by_check; reflexivity).
  destruct (rain_total_of_both_revisions _ Hok) as (_ & Hmod & _).
  split; [exact Hok | split; [vm_compute; reflexivity |]].
  rewrite Hmod. vm_compute. reflexivity.
Defined.

(** X5: the battery level as a function of the battery byte [b]: the first
    revision gives [max 0 ((20 b - 1680) / 16)], between 0 and 213, and the
    second the same capped at 100; the level is 0 exactly up to byte 84 and,
    in the second revision, 100 exactly from byte 164; a larger byte never
    gives a smaller level. *)
Theorem battery_level_steps (buf buf' : list Z) :
  frame_ok buf -> frame_ok buf' ->
  let b := byte_at buf 6 in
  battery_mv buf = 20 * b /\
  VariantA.battery_lvl buf = Z.max 0 ((20 * b - 1680) / 16) /\
  VariantB.battery_lvl buf = Z.min 100 (VariantA.battery_lvl buf) /\
  (VariantA.battery_lvl buf = 0 <-> b <= 84) /\
  (VariantB.battery_lvl buf = 100 <-> 164 <= b) /\
  0 <= VariantA.battery_lvl buf <= 213 /\
  (b <= byte_at buf' 6 ->
   VariantA.battery_lvl buf <= VariantA.battery_lvl buf' /\
   VariantB.battery_lvl buf <= VariantB.battery_lvl buf').
Proof.
  intros Hok Hok' b.
  pose proof (frame_byte buf 6 Hok) as Hb. fold b in Hb.
  pose proof (byte_cases
    (fun b =>
       let lvl := if b * 20 <? 1680 then 0 else Z.quot (b * 20 - 1680) 16 in
       (lvl =? Z.max 0 ((20 * b - 1680) / 16))
       && Bool.eqb (lvl =? 0) (b <=? 84)
       && Bool.eqb ((if lvl >? 100 then 100 else lvl) =? 100) (164 <=? b)
       && (0 <=? lvl) && (lvl <=? 213)
       && ((if lvl >? 100 then 100 else lvl) =? Z.min 100 lvl))
    eq_refl b Hb) as H.
  cbv zeta in H.
  rewrite !andb_true_iff, !eqb_true_iff, !Z.eqb_eq, !Z.leb_le in H.
  destruct H as (((((Hmax & Hzero) & Hfull) & Hlo) & Hhi) & Hmin).
  unfold VariantA.battery_lvl, VariantB.battery_lvl, battery_mv. cbv zeta. fold b.
  split; [lia |]. split; [exact Hmax |]. split; [exact Hmin |].
  split; [rewrite <- Z.eqb_eq, Hzero, Z.leb_le; reflexivity |].
  split; [rewrite <- Z.eqb_eq, Hfull, Z.leb_le; reflexivity |].
  split; [lia |].
  intros Hle.
  apply (battery_lvl_monotone buf buf'). unfold battery_mv. fold b. lia.
Qed.

Lemma battery_level_steps_witness :
  frame_ok ws90_3000mV /\ frame_ok ws90_5100mV /\
  VariantB.battery_lvl ws90_3000mV = Z.min 100 (VariantA.battery_lvl ws90_3000mV) /\
  VariantA.battery_lvl ws90_3000mV <= VariantA.battery_lvl ws90_5100mV.
Proof.
  assert (Hok : frame_ok ws90_3000mV) by (apply frame_ok_by_check; reflexivity).
  assert (Hok' : frame_ok ws90_5100mV) by (apply frame_ok_by_check; reflexivity).
  destruct (battery_level_steps _ _ Hok Hok') as (_ & _ & Hmin & _ & _ & _ & Hmono).
  split; [exact Hok | split; [exact Hok' | split; [exact Hmin |]]].
  apply Hmono. vm_compute. discriminate.
Defined.

(** X6: for the same buffer the two revisions give the same value, or both
    none, for [model], [id], [battery_mV], [temperature_C], [humidity],
    [wind_dir_deg], [wind_avg_m_s], [wind_max_m_s], [uv], [lux], [flags] and
    [mic]. *)
Theorem revisions_agree_on_shared_fields (buf : list Z) (k : string) :
  In k ["model"; "id"; "battery_mV"; "temperature_C"; "humidity"; "wind_dir_deg";
        "wind_avg_m_s"; "wind_max_m_s"; "uv"; "lux"; "flags"; "mic"] ->
  data_get k (record LayoutA buf) = data_get k (record LayoutB buf).
Proof.
  simpl In. intros H.
  repeat (destruct H as [<- | H]; [data_get_walk; reflexivity |]).
  destruct H.
Qed.

Lemma revisions_agree_on_shared_fields_witness :
  data_get "lux" (record LayoutA ws90_sample) = Some (DATA_DOUBLE (1190 # 1)) /\
  data_get "lux" (record LayoutB ws90_sample) = Some (DATA_DOUBLE (1190 # 1)).
Proof.
  assert (Ha : data_get "lux" (record LayoutA ws90_sample) = Some (DATA_DOUBLE (1190 # 1)))
    by (vm_compute; reflexivity).
  split; [exact Ha |].
  rewrite <- (revisions_agree_on_shared_fields ws90_sample "lux"); [exact Ha |].
  simpl. tauto.
Defined.

(** ** The integrity bytes *)

(** Names the 32 bytes of a frame. *)
Ltac frame_bytes buf Hok :=
  let Hlen := fresh "Hlen" in
  let Hall := fresh "Hall" in
  destruct Hok as [Hlen Hall];
  do 32 (destruct buf as [| ? buf]; [discriminate Hlen |]);
  destruct buf as [| ? buf]; [clear Hlen | discriminate Hlen].

Lemma lxor_byte (a b : Z) : is_byte a -> is_byte b -> is_byte (Z.lxor a b).
Proof.
  unfold is_byte. intros Ha Hb.
  assert (Hnn : 0 <= Z.lxor a b) by (apply Z.lxor_nonneg; lia).
  split; [exact Hnn |].
  destruct (Z.eq_dec (Z.lxor a b) 0) as [-> | Hnz]; [lia |].
  change 256 with (2 ^ 8). apply Z.log2_lt_pow2; [lia |].
  pose proof (Z.log2_lxor a b ltac:(lia) ltac:(lia)) as Hlog.
  assert (Hla : Z.log2 a < 8).
  { destruct (Z.eq_dec a 0) as [-> | ?]; [reflexivity |].
    apply Z.log2_lt_pow2; [lia |]. change (2 ^ 8) with 256. lia. }
  assert (Hlb : Z.log2 b < 8).
  { destruct (Z.eq_dec b 0) as [-> | ?]; [reflexivity |].
    apply Z.log2_lt_pow2; [lia |]. change (2 ^ 8) with 256. lia. }
  lia.
Qed.

Lemma crc8_shift_byte (n : nat) (r : Z) : is_byte r -> is_byte (crc8_shift n r 0x31).
Proof.
  revert r. induction n as [| n IH]; intros r Hr; [exact Hr |].
  cbn [crc8_shift]. cbv zeta. apply IH.
  assert (Hs : is_byte (Z.shiftl r 1 mod 256))
    by (unfold is_byte; apply Z.mod_pos_bound; lia).
  destruct (Z.land r 128 =? 0); [exact Hs | apply lxor_byte; [exact Hs | unfold is_byte; lia]].
Qed.

Lemma crc8_byte (message : list Z) (nBytes : nat) :
  Forall is_byte message -> is_byte (crc8 message nBytes 0x31 0x00).
Proof.
  intros Hall. unfold crc8.
  assert (Hfirst : Forall is_byte (firstn nBytes message)).
  { revert nBytes. induction Hall; intros [| n]; simpl; constructor; auto. }
  assert (Hinit : is_byte 0) by (unfold is_byte; lia).
  revert Hinit. generalize 0 as r. clear Hall.
  induction Hfirst as [| b rest Hb _ IH]; intros r Hr; [exact Hr |].
  cbn [fold_left]. apply IH, crc8_shift_byte, lxor_byte; assumption.
Qed.

Lemma sums_apart (S S' c c' a b : Z) :
  S mod 256 = c -> S' mod 256 = c' ->
  0 <= a < 256 -> 0 <= b < 256 ->
  (S - c) - (S' - c') = a - b \/ (S - c) - (S' - c') = b - a ->
  a = b.
Proof.
  intros Hc Hc' Ha Hb Hd.
  pose proof (Z.div_mod S 256 ltac:(lia)) as HS.
  pose proof (Z.div_mod S' 256 ltac:(lia)) as HS'.
  rewrite Hc in HS. rewrite Hc' in HS'.
  generalize dependent (S / 256). generalize dependent (S' / 256).
  intros q' HS' q HS. lia.
Qed.

Lemma crc8_shift_zero (x : Z) : is_byte x -> (crc8_shift 8 x 0x31 = 0 <-> x = 0).
Proof.
  intros Hx.
  pose proof (byte_cases (fun x => Bool.eqb (crc8_shift 8 x 0x31 =? 0) (x =? 0))
                         eq_refl x Hx) as H.
  apply eqb_prop in H. rewrite <- !Z.eqb_eq, H. reflexivity.
Qed.

Lemma mic_failure_iff_trailer (buf : list Z) :
  frame_ok buf ->
  (mic_failure buf = false <-> skipn 30 buf = trailer buf).
Proof.
  intros Hok.
  pose proof (crc8_byte buf 30 (proj2 Hok)) as Hcrc.
  pose proof (frame_byte buf 30 Hok) as H30.
  pose proof (frame_byte buf 31 Hok) as H31.
  assert (Hsplit : firstn 31 buf = firstn 30 buf ++ [byte_at buf 30]
                   /\ skipn 30 buf = [byte_at buf 30; byte_at buf 31]).
  { clear Hcrc H30 H31. frame_bytes buf Hok. split; reflexivity. }
  destruct Hsplit as [Hfirst Hlast].
  assert (Hc : crc8 buf 31 0x31 0x00
               = crc8_shift 8 (Z.lxor (crc8 buf 30 0x31 0x00) (byte_at buf 30)) 0x31).
  { unfold crc8. rewrite Hfirst, fold_left_app. reflexivity. }
  assert (Hs : add_bytes buf 31 = add_bytes buf 30 + byte_at buf 30).
  { unfold add_bytes. rewrite Hfirst, fold_left_app. reflexivity. }
  unfold mic_failure, trailer. cbv zeta.
  rewrite orb_false_iff, !negb_false_iff, !Z.eqb_eq, Hc, Hs, Hlast.
  rewrite (crc8_shift_zero _ (lxor_byte _ _ Hcrc H30)).
  rewrite Z.lxor_eq_0_iff.
  split.
  - intros [Hcrc30 Hsum]. rewrite Hcrc30, Hsum. reflexivity.
  - intros Heq. injection Heq as H30' H31'. rewrite <- H30' in H31'. split; congruence.
Qed.

Lemma length_set_byte (buf : list Z) (i : nat) (v : Z) :
  List.length (set_byte buf i v) = List.length buf.
Proof.
  revert i. induction buf as [| b rest IH]; intros [| i]; simpl; auto.
Qed.

Lemma set_byte_same_value (buf : list Z) (i : nat) : set_byte buf i (byte_at buf i) = buf.
Proof.
  unfold byte_at. revert i. induction buf as [| b rest IH]; intros [| i]; simpl;
    try reflexivity. rewrite IH. reflexivity.
Qed.

Lemma equal_outside_one_byte (buf buf' : list Z) (i : nat) :
  List.length buf = List.length buf' ->
  (forall j, j <> i -> byte_at buf j = byte_at buf' j) ->
  buf' = set_byte buf i (byte_at buf' i).
Proof.
  intros Hlen Hsame.
  apply (nth_ext _ _ 0 0); [rewrite length_set_byte; auto |].
  intros j Hj. fold (byte_at buf' j). fold (byte_at (set_byte buf i (byte_at buf' i)) j).
  destruct (Nat.eq_dec i j) as [<- | Hne].
  - rewrite byte_at_set_byte_same by lia. reflexivity.
  - rewrite byte_at_set_byte_other by exact Hne. symmetry. apply Hsame. auto.
Qed.

Lemma fold_add_from (l : list Z) (a : Z) : fold_left Z.add l a = a + fold_left Z.add l 0.
Proof.
  revert a. induction l as [| x l IH]; intros a; simpl; [lia |].
  rewrite (IH (a + x)), (IH x). lia.
Qed.

Lemma add_bytes_set_byte (buf : list Z) (i n : nat) (v : Z) :
  add_bytes (set_byte buf i v) n
  = add_bytes buf n
    + (if (i <? n)%nat && (i <? List.length buf)%nat then v - byte_at buf i else 0).
Proof.
  unfold add_bytes, byte_at. revert i n.
  induction buf as [| b rest IH]; intros i n.
  - destruct i, n; simpl; try reflexivity. rewrite andb_false_r. reflexivity.
  - destruct n as [| n]; [destruct i; reflexivity |].
    destruct i as [| i].
    + cbn [set_byte firstn fold_left nth]. rewrite (fold_add_from _ (0 + v)),
        (fold_add_from _ (0 + b)). simpl. lia.
    + cbn [set_byte firstn fold_left nth List.length].
      rewrite (fold_add_from _ (0 + b)), (fold_add_from (firstn n rest) (0 + b)), IH.
      change (S i <? S n)%nat with (i <? n)%nat.
      change (S i <? S (List.length rest))%nat with (i <? List.length rest)%nat. lia.
Qed.

Lemma sum_check_separates (buf buf' : list Z) (i : nat) :
  frame_ok buf -> frame_ok buf' ->
  add_bytes buf 31 mod 256 = byte_at buf 31 ->
  add_bytes buf' 31 mod 256 = byte_at buf' 31 ->
  (forall j, j <> i -> byte_at buf j = byte_at buf' j) ->
  buf = buf'.
Proof.
  intros Hok Hok' Hsum Hsum' Hsame.
  pose proof (frame_byte buf i Hok) as Hi. pose proof (frame_byte buf' i Hok') as Hi'.
  unfold is_byte in Hi, Hi'.
  assert (Hlen : List.length buf = 32%nat) by apply Hok.
  assert (Hset : buf' = set_byte buf i (byte_at buf' i)).
  { apply equal_outside_one_byte; [| exact Hsame]. destruct Hok as [-> _], Hok' as [-> _].
    reflexivity. }
  assert (Hgoal : byte_at buf' i = byte_at buf i).
  { pose proof (add_bytes_set_byte buf i 31 (byte_at buf' i)) as Hadd.
    rewrite <- Hset, Hlen in Hadd.
    destruct (Nat.ltb_spec i 31) as [Hlt | Hge].
    - replace (i <? 32)%nat with true in Hadd by (symmetry; apply Nat.ltb_lt; lia).
      cbn [andb] in Hadd. rewrite <- (Hsame 31%nat ltac:(lia)) in Hsum'.
      symmetry. apply (sums_apart _ _ _ _ _ _ Hsum Hsum' Hi Hi'). left. lia.
    - cbn [andb] in Hadd. destruct (Nat.eq_dec i 31) as [-> | Hne].
      + rewrite Hadd, Z.add_0_r in Hsum'. congruence.
      + unfold byte_at. destruct Hok' as [Hlen' _].
        rewrite !nth_overflow by lia. reflexivity. }
  rewrite Hset, Hgoal. symmetry. apply set_byte_same_value.
Qed.

(** X7: two accepted frames never differ in exactly one byte: if the
    extracted buffers of two accepted rows agree at every index but one, they
    are equal.  So a frame with any single byte changed is not accepted. *)
Theorem accepted_frames_differ_in_two_bytes
        (l l' : layout) (bitbuffer bitbuffer' : bitbuffer_t) (i : nat) :
  accepted l bitbuffer = true -> accepted l' bitbuffer' = true ->
  (forall j, j <> i ->
             byte_at (extracted l bitbuffer) j = byte_at (extracted l' bitbuffer') j) ->
  extracted l bitbuffer = extracted l' bitbuffer'.
Proof.
  unfold accepted, mic_failure. intros Hacc Hacc' Hsame.
  apply andb_true_iff in Hacc, Hacc'.
  destruct Hacc as [_ Hmic], Hacc' as [_ Hmic'].
  rewrite negb_true_iff, orb_false_iff, !negb_false_iff, !Z.eqb_eq in Hmic, Hmic'.
  apply (sum_check_separates _ _ i);
    try apply extracted_frame_ok; tauto.
Qed.

Lemma accepted_frames_differ_in_two_bytes_witness :
  accepted LayoutA (on_air LayoutA ws90_sample) = true /\
  accepted LayoutB (on_air LayoutB ws90_sample) = true /\
  extracted LayoutA (on_air LayoutA ws90_sample)
  = extracted LayoutB (on_air LayoutB ws90_sample).
Proof.
  assert (Ha : accepted LayoutA (on_air LayoutA ws90_sample) = true)
    by (vm_compute; reflexivity).
  assert (Hb : accepted LayoutB (on_air LayoutB ws90_sample) = true)
    by (vm_compute; reflexivity).
  split; [exact Ha | split; [exact Hb |]].
  apply (accepted_frames_differ_in_two_bytes _ _ _ _ 0%nat Ha Hb).
  intros j _.
  replace (extracted LayoutA (on_air LayoutA ws90_sample)) with ws90_sample
    by (vm_compute; reflexivity).
  replace (extracted LayoutB (on_air LayoutB ws90_sample)) with ws90_sample
    by (vm_compute; reflexivity).
  reflexivity.
Defined.

(** ** Locating and extracting the frame *)

Lemma search_from_spec (fuel : nat) (bits pattern : list Z) (len ipos : Z) (plen : nat) :
  let r := search_from fuel bits pattern len ipos plen in
  (r = len \/
   (ipos <= r /\ r + Z.of_nat plen <= len /\ pattern_at bits pattern r plen = true)) /\
  (forall p, ipos <= p < r -> p < ipos + Z.of_nat fuel -> p + Z.of_nat plen <= len ->
             pattern_at bits pattern p plen = false).
Proof.
  cbv zeta. revert ipos. induction fuel as [| fuel IH]; intros ipos.
  - cbn [search_from]. split; [left; reflexivity | intros; lia].
  - cbn [search_from].
    destruct (Z.gtb_spec (ipos + Z.of_nat plen) len) as [Hroom | Hroom].
    + split; [left; reflexivity | intros; lia].
    + destruct (pattern_at bits pattern ipos plen) eqn:Hhere.
      * split; [right; repeat split; [lia | lia | exact Hhere] | intros; lia].
      * destruct (IH (ipos + 1)) as [Hfound Hfirst]. split.
        -- destruct Hfound as [-> | (H1 & H2 & H3)]; [left; reflexivity | right].
           repeat split; [lia | exact H2 | exact H3].
        -- intros p Hp Hfuel Hfit.
           destruct (Z.eq_dec p ipos) as [-> | Hne]; [exact Hhere |].
           apply Hfirst; lia.
Qed.





(** X8: when the decoder gets to the family check, the sync pattern matches
    the row at the searched position and nowhere before it, the 256 bits it
    extracts start right behind that match and end inside the row; so the row
    holds at least 280 bits (first revision) or 288 bits (second revision,
    whose length window starts at 168). *)
Theorem frame_follows_first_sync (l : layout) (bitbuffer : bitbuffer_t) :
  reaches_family_check l bitbuffer = true ->
  let bits := row_bytes bitbuffer 0 in
  let sync := bitbuffer_search bitbuffer 0 0 (preamble l) (preamble_bits l) in
  0 <= sync /\
  bit_offset l bitbuffer = sync + Z.of_nat (preamble_bits l) /\
  bit_offset l bitbuffer + 256 <= row_bits bitbuffer 0 /\
  pattern_at bits (preamble l) sync (preamble_bits l) = true /\
  (forall p, 0 <= p < sync -> pattern_at bits (preamble l) p (preamble_bits l) = false) /\
  Z.of_nat (preamble_bits l) + 256 <= row_bits bitbuffer 0.
Proof.
  intros Hreach bits sync.
  unfold reaches_family_check, bad_length, short_package, bit_offset in *.
  apply andb_true_iff in Hreach. destruct Hreach as [Hlen Hshort].
  rewrite negb_true_iff in Hlen, Hshort.
  apply orb_false_iff in Hlen. destruct Hlen as [Hmin Hmax].
  apply Z.ltb_ge in Hmin. rewrite Z.gtb_ltb in Hmax, Hshort.
  apply Z.ltb_ge in Hmax, Hshort.
  fold sync in Hshort.
  assert (Hwin : 168 <= row_bits bitbuffer 0 <= 350)
    by (destruct l; simpl in Hmin, Hmax; lia).
  assert (Hbits : 24 <= Z.of_nat (preamble_bits l) <= 32) by (destruct l; simpl; lia).
  destruct (search_from_spec (Z.to_nat (row_bits bitbuffer 0)) bits (preamble l)
                             (row_bits bitbuffer 0) 0 (preamble_bits l))
    as [Hfound Hfirst].
  change (search_from _ _ _ _ _ _) with sync in Hfound, Hfirst.
  assert (Hrange : 0 <= sync <= row_bits bitbuffer 0)
    by (destruct Hfound as [-> | (? & ? & _)]; lia).
  rewrite Z.mod_small in Hshort |- * by lia.
  destruct Hfound as [Hnone | (_ & _ & Hmatch)]; [lia |].
  repeat split; try lia; try assumption.
  intros p Hp. apply Hfirst; lia.
Qed.

Lemma frame_follows_first_sync_witness :
  let row := bitbuffer_of_bytes ([0; 0] ++ VariantA.preamble ++ ws90_sample) in
  reaches_family_check LayoutA row = true /\
  bitbuffer_search row 0 0 VariantA.preamble 24 = 16 /\
  bit_offset LayoutA row = 16 + 24.
Proof.
  cbv zeta.
  assert (Hreach : reaches_family_check LayoutA
                     (bitbuffer_of_bytes ([0; 0] ++ VariantA.preamble ++ ws90_sample)) = true)
    by (vm_compute; reflexivity).
  destruct (frame_follows_first_sync _ _ Hreach) as (_ & Hoff & _).
  split; [exact Hreach | split; [vm_compute; reflexivity |]].
  rewrite Hoff. vm_compute. reflexivity.
Defined.





Lemma mic_failure_iff_bytes (buf : list Z) :
  frame_ok buf ->
  mic_failure buf = false <->
  byte_at buf 30 = crc8 buf 30 0x31 0x00 /\
  byte_at buf 31 = (add_bytes buf 30 + byte_at buf 30) mod 256.
Proof.
  intros Hok. rewrite (mic_failure_iff_trailer buf Hok).
  assert (Hlast : skipn 30 buf = [byte_at buf 30; byte_at buf 31])
    by (frame_bytes buf Hok; reflexivity).
  rewrite Hlast. unfold trailer. cbv zeta.
  generalize (byte_at buf 30) (byte_at buf 31) (crc8 buf 30 49 0) (add_bytes buf 30).
  intros b30 b31 crc sum. split.
  - intros H. injection H as H30 H31. subst. auto.
  - intros [H30 H31]. subst. reflexivity.
Qed.

(** X10: a frame that passes the family check yields a record exactly when
    byte 30 is the CRC-8 of bytes 0-29 and byte 31 is the sum of bytes 0-30
    modulo 256; so thirty leading bytes have exactly one accepted ending. *)
Theorem record_iff_crc_and_sum_bytes (l : layout) (bitbuffer : bitbuffer_t) :
  reaches_integrity_check l bitbuffer = true ->
  let buf := extracted l bitbuffer in
  produces_record l bitbuffer <->
  byte_at buf 30 = crc8 buf 30 0x31 0x00 /\
  byte_at buf 31 = (add_bytes buf 30 + byte_at buf 30) mod 256.
Proof.
  intros Hreach buf.
  rewrite <- (mic_failure_iff_bytes buf (extracted_frame_ok l bitbuffer)).
  unfold produces_record. destruct (mic_failure buf) eqn:Hmic.
  - assert (Hacc : accepted l bitbuffer = false)
      by (unfold accepted; fold buf; rewrite Hmic; apply andb_false_r).
    destruct (decode_not_accepted _ _ Hacc) as [-> _]. split; [tauto | discriminate].
  - assert (Hacc : accepted l bitbuffer = true)
      by (unfold accepted; fold buf; rewrite Hmic, Hreach; reflexivity).
    rewrite (emitted_accepted _ _ Hacc). split; [reflexivity | discriminate].
Qed.

Lemma record_iff_crc_and_sum_bytes_witness :
  reaches_integrity_check LayoutB (on_air LayoutB ws90_sample) = true /\
  produces_record LayoutB (on_air LayoutB ws90_sample).
Proof.
  assert (Hreach : reaches_integrity_check LayoutB (on_air LayoutB ws90_sample) = true)
    by (vm_compute; reflexivity).
  split; [exact Hreach |].
  apply (record_iff_crc_and_sum_bytes _ _ Hreach).
  vm_compute. split; reflexivity.
Defined.

(** ** What a record tells about the frame *)

Lemma tenths_inj (x y : Z) : tenths x = tenths y -> x = y.
Proof.
  unfold tenths, Qmult, inject_Z. simpl. intros H. injection H as H. lia.
Qed.

Lemma optional_tenths_inj (a b sentinel offset : Z) :
  (if a =? sentinel then None else Some (DATA_DOUBLE (tenths (a - offset))))
  = (if b =? sentinel then None else Some (DATA_DOUBLE (tenths (b - offset)))) ->
  a = b.
Proof.
  destruct (Z.eqb_spec a sentinel), (Z.eqb_spec b sentinel); intros H;
    try discriminate; [congruence |].
  assert (Ht : tenths (a - offset) = tenths (b - offset)) by congruence.
  apply tenths_inj in Ht. lia.
Qed.

Lemma optional_int_inj (a b sentinel : Z) :
  (if a =? sentinel then None else Some (DATA_INT a))
  = (if b =? sentinel then None else Some (DATA_INT b)) ->
  a = b.
Proof.
  destruct (Z.eqb_spec a sentinel), (Z.eqb_spec b sentinel); intros H;
    try discriminate; congruence.
Qed.

(** The fields that are always in the record. *)
Lemma record_plain_fields (l : layout) (buf : list Z) :
  let d := record l buf in
  data_get "id" d = Some (DATA_STRING (id_str buf)) /\
  data_get "battery_mV" d = Some (DATA_INT (battery_mv buf)) /\
  data_get "flags" d = Some (DATA_INT (flags buf)) /\
  data_get "rain_mm" d
  = Some (DATA_DOUBLE (tenths (match l with
                               | LayoutA => VariantA.rain_raw buf
                               | LayoutB => VariantB.rain_raw buf
                               end))) /\
  match l with
  | LayoutA =>
      data_get "g1" d = Some (DATA_STRING (VariantA.g1 buf)) /\
      data_get "g2" d = Some (DATA_STRING (VariantA.g2 buf)) /\
      data_get "g3" d = Some (DATA_STRING (VariantA.g3 buf))
  | LayoutB =>
      data_get "supercap_V" d = Some (DATA_DOUBLE (tenths (VariantB.supercap_V buf))) /\
      data_get "firmware" d = Some (DATA_INT (VariantB.firmware buf)) /\
      data_get "data" d = Some (DATA_STRING (VariantB.extra buf))
  end.
Proof.
  cbv zeta.
  assert (Hcap : (VariantB.supercap_V buf =? 0xff) = false)
    by (apply Z.eqb_neq; pose proof (supercap_V_range buf); lia).
  destruct l; repeat split; data_get_walk; rewrite ?Hcap; reflexivity.
Qed.

Lemma optional_lux_inj (a b : Z) :
  (if a =? 0xffff then None else Some (DATA_DOUBLE (inject_Z (a * 10))))
  = (if b =? 0xffff then None else Some (DATA_DOUBLE (inject_Z (b * 10)))) ->
  a = b.
Proof.
  destruct (Z.eqb_spec a 0xffff), (Z.eqb_spec b 0xffff); intros H;
    try discriminate; [congruence |].
  unfold inject_Z in H. injection H as H. lia.
Qed.

Ltac shown_byte H i :=
  let E := fresh "E" in
  assert (E := H i ltac:(simpl; tauto)).

Ltac shown_bytes_1_13 H :=
  shown_byte H 1%nat; shown_byte H 2%nat; shown_byte H 3%nat; shown_byte H 4%nat;
  shown_byte H 5%nat; shown_byte H 6%nat; shown_byte H 7%nat; shown_byte H 8%nat;
  shown_byte H 9%nat; shown_byte H 10%nat; shown_byte H 11%nat; shown_byte H 12%nat;
  shown_byte H 13%nat.

Ltac shown_bytes_22_29 H :=
  shown_byte H 22%nat; shown_byte H 23%nat; shown_byte H 24%nat; shown_byte H 25%nat;
  shown_byte H 26%nat; shown_byte H 27%nat; shown_byte H 28%nat; shown_byte H 29%nat.

Lemma record_reads_shown_bytes (l : layout) (buf buf' : list Z) :
  (forall i, In i (shown_bytes l) -> byte_at buf i = byte_at buf' i) ->
  masked_byte l buf = masked_byte l buf' ->
  record l buf = record l buf'.
Proof.
  intros Hshown Hmask.
  destruct l; unfold masked_byte in Hmask; unfold shown_bytes in Hshown;
    shown_bytes_1_13 Hshown; shown_bytes_22_29 Hshown;
    shown_byte Hshown 15%nat; shown_byte Hshown 16%nat; shown_byte Hshown 17%nat;
    shown_byte Hshown 18%nat; shown_byte Hshown 20%nat.
  - shown_byte Hshown 21%nat.
    unfold record, VariantA.data, id_str, id, VariantA.battery_lvl, battery_mv, temp_c,
      temp_raw, humidity, wind_dir, wind_avg, wind_max, uv_index, light_lux, light_raw,
      VariantA.rain, VariantA.rain_raw, flags, VariantA.g1, VariantA.g2, VariantA.g3.
    repeat match goal with
           | E : byte_at buf ?i = byte_at buf' ?i |- _ => rewrite E; clear E
           end.
    rewrite Hmask. reflexivity.
  - shown_byte Hshown 14%nat. shown_byte Hshown 19%nat.
    unfold record, VariantB.data, id_str, id, VariantB.battery_lvl, battery_mv, temp_c,
      temp_raw, humidity, wind_dir, wind_avg, wind_max, uv_index, light_lux, light_raw,
      VariantB.rain_raw, VariantB.supercap_V, VariantB.firmware, flags, VariantB.extra.
    repeat match goal with
           | E : byte_at buf ?i = byte_at buf' ?i |- _ => rewrite E; clear E
           end.
    rewrite Hmask. reflexivity.
Qed.

Lemma id_str_inj (buf buf' : list Z) :
  frame_ok buf -> frame_ok buf' -> id_str buf = id_str buf' -> id buf = id buf'.
Proof.
  intros Hok Hok' Hstr.
  assert (Hread : forall b, frame_ok b -> hex_value (id_str b) = id b).
  { intros b Hb. destruct (big_endian_values b Hb) as (Hid & _).
    pose proof (frame_byte b 1 Hb). pose proof (frame_byte b 2 Hb).
    pose proof (frame_byte b 3 Hb). unfold is_byte in *.
    apply (sprintf_0x_reads_back 6 6); [lia |].
    rewrite Hid. change (16 ^ Z.of_nat 6) with 16777216. lia. }
  rewrite <- (Hread buf Hok), <- (Hread buf' Hok'), Hstr. reflexivity.
Qed.

(** The raw values that two equal records share. *)
Lemma equal_records_equal_raw_values (l : layout) (buf buf' : list Z) :
  frame_ok buf -> frame_ok buf' -> record l buf = record l buf' ->
  id buf = id buf' /\ light_raw buf = light_raw buf' /\ battery_mv buf = battery_mv buf' /\
  flags buf = flags buf' /\ temp_raw buf = temp_raw buf' /\ humidity buf = humidity buf' /\
  wind_avg buf = wind_avg buf' /\ wind_dir buf = wind_dir buf' /\
  wind_max buf = wind_max buf' /\ uv_index buf = uv_index buf'.
Proof.
  intros Hok Hok' Hrec.
  destruct (record_fields l buf) as (Ft & Fh & Fd & Fa & Fm & Fu & Fl).
  destruct (record_fields l buf') as (Ft' & Fh' & Fd' & Fa' & Fm' & Fu' & Fl').
  destruct (record_plain_fields l buf) as (Pid & Pmv & Pfl & _).
  destruct (record_plain_fields l buf') as (Pid' & Pmv' & Pfl' & _).
  cbv zeta in *. rewrite Hrec in *.
  rewrite Ft' in Ft. rewrite Fh' in Fh. rewrite Fd' in Fd. rewrite Fa' in Fa.
  rewrite Fm' in Fm. rewrite Fu' in Fu. rewrite Fl' in Fl.
  rewrite Pid' in Pid. rewrite Pmv' in Pmv. rewrite Pfl' in Pfl.
  clear Hrec Ft' Fh' Fd' Fa' Fm' Fu' Fl' Pid' Pmv' Pfl'.
  split; [apply id_str_inj; congruence |].
  split; [symmetry; apply optional_lux_inj, Fl |].
  split; [congruence |]. split; [congruence |].
  split; [symmetry; apply (optional_tenths_inj _ _ 1023 400), Ft |].
  split; [symmetry; apply (optional_int_inj _ _ 255), Fh |].
  split; [symmetry; apply (optional_tenths_inj _ _ 511 0) |].
  { rewrite !Z.sub_0_r. exact Fa. }
  split; [symmetry; apply (optional_int_inj _ _ 511), Fd |].
  split; [symmetry; apply (optional_tenths_inj _ _ 511 0) |].
  { rewrite !Z.sub_0_r. exact Fm. }
  symmetry. apply (optional_tenths_inj _ _ 255 0). rewrite !Z.sub_0_r. exact Fu.
Qed.

Lemma equal_records_equal_bytes_1_13 (l : layout) (buf buf' : list Z) (i : nat) :
  frame_ok buf -> frame_ok buf' -> record l buf = record l buf' ->
  (1 <= i <= 13)%nat -> byte_at buf i = byte_at buf' i.
Proof.
  intros Hok Hok' Hrec Hi.
  destruct (equal_records_equal_raw_values l buf buf' Hok Hok' Hrec)
    as (Hid & Hl & Hmv & Hfl & Ht & Hh & Ha & Hd & Hm & Hu).
  destruct (big_endian_values buf Hok) as (Eid & El & _).
  destruct (big_endian_values buf' Hok') as (Eid' & El' & _).
  destruct (raw_values buf Hok) as (Et & Ea & Ed & Em).
  destruct (raw_values buf' Hok') as (Et' & Ea' & Ed' & Em').
  unfold flags, battery_mv, humidity, uv_index in *.
  rewrite Eid, Eid' in Hid. rewrite El, El' in Hl. rewrite Et, Et' in Ht.
  rewrite Ea, Ea' in Ha. rewrite Ed, Ed' in Hd. rewrite Em, Em' in Hm.
  rewrite <- Hfl in Ht, Ha, Hd, Hm.
  clear Eid Eid' El El' Et Et' Ea Ea' Ed Ed' Em Em' Hrec.
  assert (B : forall j, is_byte (byte_at buf j)) by (intros; apply frame_byte, Hok).
  assert (B' : forall j, is_byte (byte_at buf' j)) by (intros; apply frame_byte, Hok').
  unfold is_byte in B, B'.
  pose proof (B 1%nat). pose proof (B 2%nat). pose proof (B 3%nat). pose proof (B 4%nat).
  pose proof (B 5%nat). pose proof (B' 1%nat). pose proof (B' 2%nat). pose proof (B' 3%nat).
  pose proof (B' 4%nat). pose proof (B' 5%nat).
  do 14 (destruct i as [| i]; [try lia |]); lia.
Qed.

Lemma first_revision_record_shows (buf buf' : list Z) :
  frame_ok buf -> frame_ok buf' -> record LayoutA buf = record LayoutA buf' ->
  map (byte_at buf) [15; 16; 17; 18; 20; 21; 22; 23; 24; 25; 26; 27; 28; 29]%nat
  = map (byte_at buf') [15; 16; 17; 18; 20; 21; 22; 23; 24; 25; 26; 27; 28; 29]%nat /\
  masked_byte LayoutA buf = masked_byte LayoutA buf'.
Proof.
  intros Hok Hok' Hrec.
  destruct (record_plain_fields LayoutA buf) as (_ & _ & _ & Pr & P1 & P2 & P3).
  destruct (record_plain_fields LayoutA buf') as (_ & _ & _ & Pr' & P1' & P2' & P3').
  cbv zeta in *. rewrite Hrec in *.
  rewrite Pr' in Pr. rewrite P1' in P1. rewrite P2' in P2. rewrite P3' in P3.
  clear Hrec Pr' P1' P2' P3'.
  assert (Hrain : VariantA.rain_raw buf = VariantA.rain_raw buf')
    by (symmetry; apply tenths_inj; congruence).
  assert (H1 : VariantA.g1 buf = VariantA.g1 buf') by congruence.
  assert (H2 : VariantA.g2 buf = VariantA.g2 buf') by congruence.
  assert (H3 : VariantA.g3 buf = VariantA.g3 buf') by congruence.
  clear Pr P1 P2 P3.
  destruct (opaque_fields_keep_their_bytes buf Hok) as [(G1 & G2 & G3) _].
  destruct (opaque_fields_keep_their_bytes buf' Hok') as [(G1' & G2' & G3') _].
  rewrite H1, G1' in G1. rewrite H2, G2' in G2. rewrite H3, G3' in G3.
  clear H1 H2 H3 G1' G2' G3'.
  destruct (big_endian_values buf Hok) as (_ & _ & Er & _).
  destruct (big_endian_values buf' Hok') as (_ & _ & Er' & _).
  rewrite Er, Er' in Hrain.
  pose proof (frame_byte buf 20 Hok) as B. pose proof (frame_byte buf' 20 Hok') as B'.
  pose proof (Z.mod_pos_bound (byte_at buf 19) 16 ltac:(lia)) as M.
  pose proof (Z.mod_pos_bound (byte_at buf' 19) 16 ltac:(lia)) as M'.
  unfold is_byte in B, B'.
  assert (H20 : byte_at buf 20 = byte_at buf' 20) by lia.
  assert (H19 : byte_at buf 19 mod 16 = byte_at buf' 19 mod 16) by lia.
  split.
  - cbn [map] in *. injection G1 as <- <- <- <-. injection G2 as <- <- <- <-.
    injection G3 as <- <- <- <- <-. rewrite H20. reflexivity.
  - unfold masked_byte. change 0x0f with (Z.ones 4). rewrite !Z.land_ones by lia.
    exact H19.
Qed.

Lemma second_revision_record_shows (buf buf' : list Z) :
  frame_ok buf -> frame_ok buf' -> record LayoutB buf = record LayoutB buf' ->
  map (byte_at buf) [14; 15; 16; 17; 18; 19; 20; 22; 23; 24; 25; 26; 27; 28; 29]%nat
  = map (byte_at buf') [14; 15; 16; 17; 18; 19; 20; 22; 23; 24; 25; 26; 27; 28; 29]%nat /\
  masked_byte LayoutB buf = masked_byte LayoutB buf'.
Proof.
  intros Hok Hok' Hrec.
  destruct (record_plain_fields LayoutB buf) as (_ & _ & _ & Pr & Pc & Pf & Pd).
  destruct (record_plain_fields LayoutB buf') as (_ & _ & _ & Pr' & Pc' & Pf' & Pd').
  cbv zeta in *. rewrite Hrec in *.
  rewrite Pr' in Pr. rewrite Pc' in Pc. rewrite Pf' in Pf. rewrite Pd' in Pd.
  clear Hrec Pr' Pc' Pf' Pd'.
  assert (Hrain : VariantB.rain_raw buf = VariantB.rain_raw buf')
    by (symmetry; apply tenths_inj; congruence).
  assert (Hcap : VariantB.supercap_V buf = VariantB.supercap_V buf')
    by (symmetry; apply tenths_inj; congruence).
  assert (Hfw : byte_at buf 29 = byte_at buf' 29) by (unfold VariantB.firmware in Pf; congruence).
  assert (Hx : VariantB.extra buf = VariantB.extra buf') by congruence.
  clear Pr Pc Pf Pd.
  destruct (opaque_fields_keep_their_bytes buf Hok) as [_ G].
  destruct (opaque_fields_keep_their_bytes buf' Hok') as [_ G'].
  rewrite Hx, G' in G. clear Hx G'.
  destruct (big_endian_values buf Hok) as (_ & _ & _ & Er & _).
  destruct (big_endian_values buf' Hok') as (_ & _ & _ & Er' & _).
  rewrite Er, Er' in Hrain.
  pose proof (frame_byte buf 19 Hok) as A. pose proof (frame_byte buf' 19 Hok') as A'.
  pose proof (frame_byte buf 20 Hok) as B. pose proof (frame_byte buf' 20 Hok') as B'.
  unfold is_byte in A, A', B, B'.
  assert (H19 : byte_at buf 19 = byte_at buf' 19) by lia.
  assert (H20 : byte_at buf 20 = byte_at buf' 20) by lia.
  split.
  - cbn [map] in *. injection G as <- <- <- <- <- <- <- <- <- <- <- <-.
    rewrite H19, H20, Hfw. reflexivity.
  - exact Hcap.
Qed.

(** X11: two buffers have the same record exactly when they agree on the
    bytes the record shows: bytes 1-13, 15-18 and 20-29 and the low four bits
    of byte 19 in the first revision; bytes 1-20 and 22-29 and the low six
    bits of byte 21 in the second.  Nothing else of the frame reaches the
    record, and nothing of those bytes is lost. *)
Theorem record_shows_exactly_the_shown_bytes (l : layout) (buf buf' : list Z) :
  frame_ok buf -> frame_ok buf' ->
  (record l buf = record l buf' <->
   (forall i, In i (shown_bytes l) -> byte_at buf i = byte_at buf' i) /\
   masked_byte l buf = masked_byte l buf').
Proof.
  intros Hok Hok'. split.
  - intros Hrec.
    assert (Hlow : forall i, (1 <= i <= 13)%nat -> byte_at buf i = byte_at buf' i)
      by (intros i; apply (equal_records_equal_bytes_1_13 l); assumption).
    destruct l.
    + destruct (first_revision_record_shows buf buf' Hok Hok' Hrec) as [Hhigh Hmask].
      split; [| exact Hmask].
      cbn [map] in Hhigh. injection Hhigh as ? ? ? ? ? ? ? ? ? ? ? ? ? ?.
      intros i Hi. unfold shown_bytes in Hi.
      do 13 (destruct Hi as [<- | Hi]; [apply Hlow; lia |]).
      repeat (destruct Hi as [<- | Hi]; [assumption |]). destruct Hi.
    + destruct (second_revision_record_shows buf buf' Hok Hok' Hrec) as [Hhigh Hmask].
      split; [| exact Hmask].
      cbn [map] in Hhigh. injection Hhigh as ? ? ? ? ? ? ? ? ? ? ? ? ? ? ?.
      intros i Hi. unfold shown_bytes in Hi.
      do 13 (destruct Hi as [<- | Hi]; [apply Hlow; lia |]).
      repeat (destruct Hi as [<- | Hi]; [assumption |]). destruct Hi.
  - intros [Hshown Hmask]. apply record_reads_shown_bytes; assumption.
Qed.

Lemma record_shows_exactly_the_shown_bytes_witness :
  frame_ok ws90_from_ws80_sample /\ frame_ok ws90_other_byte_14 /\
  byte_at ws90_from_ws80_sample 14 <> byte_at ws90_other_byte_14 14 /\
  record LayoutA ws90_from_ws80_sample = record LayoutA ws90_other_byte_14.
Proof.
  assert (Hok : frame_ok ws90_from_ws80_sample) by (apply frame_ok_by_check; reflexivity).
  assert (Hok' : frame_ok ws90_other_byte_14) by (apply frame_ok_by_check; reflexivity).
  split; [exact Hok | split; [exact Hok' | split; [vm_compute; discriminate |]]].
  apply (record_shows_exactly_the_shown_bytes LayoutA _ _ Hok Hok'). split.
  - intros i Hi. unfold shown_bytes in Hi.
    repeat (destruct Hi as [<- | Hi]; [reflexivity |]). destruct Hi.
  - reflexivity.
Defined.
